(** * dns-ha: hysteresis state machine, record selection and zone reconciliation

    A shallow embedding of the Go sources of dns-ha and the properties of
    them that its specification states:
    - [Status]   internal/status: the three states of a managed record,
    - [Tcp]      internal/healthcheck: the TCP checker,
    - [Net]      the parts of Go's net package the sources call,
    - [Domain]   internal/domain.go: the construction of records and the
                 selection of the active ones,
    - [Unbound]  the reconciliation of the resolver file, with the two
                 implementations of its file interface.

    Go's [int] is a 64-bit two's complement integer; it is modelled as [Z]
    with the wrap-around written out in [int_wrap].  Where Go leaves an
    order open (the walk over a map, the order of equal elements after a
    sort) the order is an argument of the function, and the properties hold
    for every order. *)

From Stdlib Require Import ZArith Lia String Ascii List DecimalString.
From stdpp Require Import base tactics option list strings gmap sorting.

Local Open Scope Z_scope.

(** ** Machine integers *)

Definition int_wrap (z : Z) : Z := (z + 2 ^ 63) mod 2 ^ 64 - 2 ^ 63.

Definition int_range (z : Z) : Prop := - 2 ^ 63 <= z < 2 ^ 63.

(** ** Package status *)

Module Status.

(** [conf.StatusConfig] *)
Record StatusConfig := mkStatusConfig {
  HealthyStreak : Z;
  UnhealthyStreak : Z;
  InitialHealthyStreak : Z;
  InitialUnhealthyStreak : Z
}.

Definition InitialStateName : string := "initial".
Definition HealthyStateName : string := "healthy".
Definition UnhealthyStateName : string := "unhealthy".

(** The three implementations of the [State] interface, each with the fields
    of its struct.  A managed record holds exactly one of them. *)
Inductive State :=
| Initial (currentStreak : Z) (lastState : string)
          (cfgHealthyStreak cfgUnhealthyStreak : Z)
| Healthy (currentStreak cfgStreakUntilHealthy cfgStreakUntilUnhealthy : Z)
| Unhealthy (currentStreak cfgStreakUntilHealthy cfgStreakUntilUnhealthy : Z).

Definition newHealthy (healthyStreak unhealthyStreak : Z) : State :=
  Healthy healthyStreak healthyStreak unhealthyStreak.

Definition newUnhealthy (healthyStreak unhealthyStreak : Z) : State :=
  Unhealthy unhealthyStreak healthyStreak unhealthyStreak.

(** The zero value of [lastState] is the empty string; the constructor does
    not read [InitialUnhealthyStreak]. *)
Definition NewUnknownState (opts : StatusConfig) : State :=
  Initial (InitialHealthyStreak opts) "" (HealthyStreak opts) (UnhealthyStreak opts).

Definition Name (s : State) : string :=
  match s with
  | Initial _ _ _ _ => InitialStateName
  | Healthy _ _ _ => HealthyStateName
  | Unhealthy _ _ _ => UnhealthyStateName
  end.

Definition Streak (s : State) : Z :=
  match s with
  | Initial c _ _ _ => c
  | Healthy c _ _ => c
  | Unhealthy c _ _ => c
  end.

(** [s.currentStreak--] *)
Definition dec (c : Z) : Z := int_wrap (c - 1).

(** The methods mutate the receiver and may call [SetState] on the record.
    The result is the state the record holds afterwards: the mutated
    receiver, or the state handed to [SetState]. *)
Definition onHealthy (s : State) : State :=
  match s with
  | Initial c last h u =>
      let '(c1, last1) :=
        if String.eqb last UnhealthyStateName then (h, HealthyStateName)
        else (c, last) in
      let c2 := dec c1 in
      if c2 <=? 0 then newHealthy h u else Initial c2 last1 h u
  | Healthy _ h u => Healthy u h u
  | Unhealthy c h u =>
      let c1 := dec c in
      if c1 <=? 0 then newHealthy h u else Unhealthy c1 h u
  end.

Definition onUnhealthy (s : State) : State :=
  match s with
  | Initial c last h u =>
      let '(c1, last1) :=
        if String.eqb last HealthyStateName then (u, UnhealthyStateName)
        else (c, last) in
      let c2 := dec c1 in
      if c2 <=? 0 then newUnhealthy h u else Initial c2 last1 h u
  | Healthy c h u =>
      let c1 := dec c in
      if c1 <=? 0 then newUnhealthy h u else Healthy c1 h u
  | Unhealthy _ h u => Unhealthy u h u
  end.

Definition onError (s : State) : State :=
  match s with
  | Initial c last h u => Initial c last h u
  | Healthy c h u =>
      let c1 := dec c in
      if c1 <=? 0 then newUnhealthy h u else Healthy c1 h u
  | Unhealthy _ h u => Unhealthy u h u
  end.

(** The outcome of one probe, as [ManagedDnsRecord.Eval] dispatches it. *)
Inductive Input := H | U | E.

Definition step (s : State) (i : Input) : State :=
  match i with
  | H => onHealthy s
  | U => onUnhealthy s
  | E => onError s
  end.

Definition run (s : State) (inputs : list Input) : State :=
  fold_left step inputs s.

(** The defaults of [RecordConfig.UnmarshalYAML]. *)
Definition defaultStatusConfig : StatusConfig := mkStatusConfig 5 5 2 1.

End Status.

(** ** Go errors

    An error value is a syscall error number, the deadline error of the
    poller, some other failure, or an error wrapping another one (as
    [net.OpError] and [os.SyscallError] do through [Unwrap]). *)

Inductive error :=
| Errno (n : Z)
| ErrDeadlineExceeded
| ErrOther (msg : string)
| Wrap (op : string) (inner : error).

Definition error_eqb_head (e target : error) : bool :=
  match e, target with
  | Errno a, Errno b => a =? b
  | ErrDeadlineExceeded, ErrDeadlineExceeded => true
  | ErrOther a, ErrOther b => String.eqb a b
  | _, _ => false
  end.

(** [errors.Is]: the chain of [Unwrap] is searched for the target. *)
Fixpoint errors_Is (e target : error) : bool :=
  error_eqb_head e target ||
  match e with
  | Wrap _ inner => errors_Is inner target
  | _ => false
  end.

(** [syscall.ECONNREFUSED] and [syscall.ETIMEDOUT] on Linux. *)
Definition ECONNREFUSED : error := Errno 111.
Definition ETIMEDOUT : error := Errno 110.

(** ** Package healthcheck: the TCP checker *)

Module Tcp.

(** What [net.DialTimeout] hands back: a connection or none, an error or
    none.  The connection itself is opaque here. *)
Inductive Conn := conn (fd : Z).

Definition DialResult : Type := option Conn * option error.

(** [TcpChecker.IsHealthy], as a function of the result of the dial. *)
Definition IsHealthy (d : DialResult) : bool * option error :=
  match d with
  | (Some _, None) => (true, None)
  | (_, err) =>
      if match err with Some e => errors_Is e ECONNREFUSED | None => false end
      then (true, None)
      else (false, err)
  end.

(** *** Terms of the properties, and sample data *)

(** A dial that ran into its deadline. *)
Definition dialTimeout : error := Wrap "dial tcp" ErrDeadlineExceeded.

End Tcp.

(** ** Go's net package, as far as the sources rely on it *)

Module Net.

(** [net.IP]: a slice of bytes, 4 or 16 of them. *)
Definition IP : Type := list Z.

Definition isDigit (c : ascii) : bool :=
  (48 <=? Z.of_nat (nat_of_ascii c)) && (Z.of_nat (nat_of_ascii c) <=? 57).

Definition digitVal (c : ascii) : Z := Z.of_nat (nat_of_ascii c) - 48.

(** [netip.parseIPv4Fields]: [first] says the index is 0, [prevDot] that the
    byte before was a dot; [fields] are the octets finished so far. *)
Fixpoint parseIPv4Fields (s : list ascii) (first prevDot : bool)
    (val digLen : Z) (fields : list Z) : option (list Z) :=
  match s with
  | [] => if (Z.of_nat (length fields) <? 3) then None else Some (fields ++ [val])
  | c :: rest =>
      if isDigit c then
        if (digLen =? 1) && (val =? 0) then None
        else
          let val' := val * 10 + digitVal c in
          if 255 <? val' then None
          else parseIPv4Fields rest false false val' (digLen + 1) fields
      else if Ascii.eqb c "."%char then
        if first || match rest with [] => true | _ => false end || prevDot
        then None
        else if Z.of_nat (length fields) =? 3 then None
        else parseIPv4Fields rest false true 0 0 (fields ++ [val])
      else None
  end.

Definition parseIPv4 (s : string) : option (list Z) :=
  parseIPv4Fields (list_ascii_of_string s) true false 0 0 [].

(** The 12 bytes in front of an IPv4 address held in 16 bytes. *)
Definition v4InV6Prefix : list Z := [0; 0; 0; 0; 0; 0; 0; 0; 0; 0; 255; 255].

(** Which parser [netip.ParseAddr] hands the string to: decided by the
    first of the bytes '.', ':' and '%' in it. *)
Inductive Literal := LitV4 | LitV6 | LitNone.

Fixpoint literalKind (s : list ascii) : Literal :=
  match s with
  | [] => LitNone
  | c :: rest =>
      if Ascii.eqb c "."%char then LitV4
      else if Ascii.eqb c ":"%char then LitV6
      else if Ascii.eqb c "%"%char then LitNone
      else literalKind rest
  end.

(** [net.ParseIP]: the 16-byte form of the address, or nil.  The parser of
    IPv6 literals is the library's; it is a parameter here and yields the 16
    bytes of the address. *)
Definition ParseIP (parseIPv6 : string -> option (list Z)) (s : string) : option IP :=
  match literalKind (list_ascii_of_string s) with
  | LitV4 => match parseIPv4 s with
             | Some q => Some (v4InV6Prefix ++ q)
             | None => None
             end
  | LitV6 => parseIPv6 s
  | LitNone => None
  end.

(** [IP.To4] *)
Definition To4 (ip : IP) : option IP :=
  if Nat.eqb (length ip) 4 then Some ip
  else if Nat.eqb (length ip) 16
          && forallb (Z.eqb 0) (take 10 ip)
          && (nth 10 ip 0 =? 255) && (nth 11 ip 0 =? 255)
  then Some (drop 12 ip)
  else None.

End Net.

(** ** Package internal: records and their selection *)

Module Domain.

(** [conf.RecordConfig]; the option bag of the health checker plays no part
    in what follows and is left out. *)
Record RecordConfig := mkRecordConfig {
  cfgIP : string;
  cfgRecordType : string;
  cfgPrio : Z;
  cfgTtl : Z;
  cfgStatusConfig : Status.StatusConfig
}.

Record DnsRecord := mkDnsRecord {
  Priority : Z;   (* uint8 *)
  DnsType : string;
  Ip : Net.IP;
  Ttl : Z         (* uint16 *)
}.

(** [NewDnsRecord]; the two conversions truncate as Go's do. *)
Definition NewDnsRecord (parseIPv6 : string -> option (list Z))
    (conf : RecordConfig) : DnsRecord + string :=
  match Net.ParseIP parseIPv6 (cfgIP conf) with
  | None => inr ("could not parse " ++ cfgIP conf ++ " as ip address")%string
  | Some parsed =>
      if match Net.To4 parsed with None => true | Some _ => false end
         && negb (String.eqb (cfgRecordType conf) "AAAA")
      then inr "refusing to use IPv4 address with AAAA record"%string
      else inl {| Priority := cfgPrio conf mod 2 ^ 8;
                  DnsType := cfgRecordType conf;
                  Ip := parsed;
                  Ttl := cfgTtl conf mod 2 ^ 16 |}
  end.

(** [ManagedDnsRecord]; the probe and the time of the last change are not
    read by the selection. *)
Record ManagedDnsRecord := mkManaged {
  record : DnsRecord;
  Hostname : string;
  status : Status.State
}.

Definition NewManagedDnsRecord (hostname : string) (r : DnsRecord)
    (statusOpts : Status.StatusConfig) : ManagedDnsRecord :=
  {| record := r; Hostname := hostname; status := Status.NewUnknownState statusOpts |}.

(** [cmp.Compare] on integers *)
Definition cmpCompare (x y : Z) : Z :=
  if x <? y then -1 else if y <? x then 1 else 0.

Definition PriorityComparator (a b : ManagedDnsRecord) : Z :=
  cmpCompare (Priority (record b)) (Priority (record a)).

Definition isHealthyState (m : ManagedDnsRecord) : bool :=
  String.eqb (Status.Name (status m)) Status.HealthyStateName.

(** The first loop of [filterHealthyIps]: the healthy records, grouped by
    record type, each group in the order of [ips]. *)
Definition groupHealthy (ips : list ManagedDnsRecord)
    : gmap string (list ManagedDnsRecord) :=
  fold_left
    (fun healthyIps ip =>
       if isHealthyState ip then
         <[DnsType (record ip) :=
             default [] (healthyIps !! DnsType (record ip)) ++ [ip]]> healthyIps
       else healthyIps)
    ips ∅.

(** [filterHealthyIps].  [SortFunc] stands for [slices.SortFunc] and
    [rangeOrder] for the order in which Go walks the map, which the language
    leaves open; the update of the metrics does not touch the result. *)
Definition filterHealthyIps
    (SortFunc : (ManagedDnsRecord -> ManagedDnsRecord -> Z) ->
                list ManagedDnsRecord -> list ManagedDnsRecord)
    (rangeOrder : list (string * list ManagedDnsRecord) ->
                  list (string * list ManagedDnsRecord))
    (hostname : string) (ips : list ManagedDnsRecord) : list ManagedDnsRecord :=
  let healthyIps := groupHealthy ips in
  if Nat.eqb (size healthyIps) 0 then []
  else
    fold_left
      (fun ipsToUpdate kv =>
         match SortFunc PriorityComparator (snd kv) with
         | first :: _ => ipsToUpdate ++ [first]
         | [] => ipsToUpdate
         end)
      (rangeOrder (map_to_list healthyIps)) [].

(** *** Terms of the properties, and sample data *)

(** The healthy records of one type, in the order of the input. *)
Definition healthyOfType (ty : string) (ips : list ManagedDnsRecord)
    : list ManagedDnsRecord :=
  filter (fun r => isHealthyState r = true /\ DnsType (record r) = ty) ips.

Definition nonNil {A} (l : list A) : option (list A) :=
  match l with [] => None | _ => Some l end.

(** The order of the comparator: [a] may stand before [b]. *)
Definition byPriority (a b : ManagedDnsRecord) : Prop :=
  PriorityComparator a b <= 0.

#[export] Instance byPriority_dec a b : Decision (byPriority a b).
Proof. unfold byPriority. apply _. Defined.

(** The record a group contributes: the first after the sort. *)
Definition firstOf
    (SortFunc : (ManagedDnsRecord -> ManagedDnsRecord -> Z) ->
                list ManagedDnsRecord -> list ManagedDnsRecord)
    (kv : string * list ManagedDnsRecord) : option ManagedDnsRecord :=
  head (SortFunc PriorityComparator kv.2).

(** A sort that meets the two assumptions: merge sort by the comparator. *)
Definition mergeSortFunc (cmp : ManagedDnsRecord -> ManagedDnsRecord -> Z)
    (l : list ManagedDnsRecord) : list ManagedDnsRecord :=
  @merge_sort _ (fun a b => cmp a b <= 0) (fun a b => Z.le_dec (cmp a b) 0) l.

(** The records of the test of the selection: one healthy and two unhealthy
    records of type A, and a healthy AAAA record of lower priority. *)
Definition sampleIps : list ManagedDnsRecord :=
  [ mkManaged (mkDnsRecord 250 "A" [192; 168; 1; 1] 60) "xxx" (Status.Healthy 0 0 0);
    mkManaged (mkDnsRecord 200 "A" [192; 168; 1; 2] 60) "xxx" (Status.Unhealthy 0 0 0);
    mkManaged (mkDnsRecord 100 "A" [192; 168; 1; 3] 60) "xxx" (Status.Healthy 0 0 0);
    mkManaged (mkDnsRecord 10 "AAAA" [0; 0; 0; 0; 0; 0; 0; 0; 0; 0; 0; 0; 0; 0; 0; 1] 60)
              "xxx" (Status.Healthy 0 0 0) ].

End Domain.

(** ** Package unbound: reconciliation of the resolver file *)

Module Unbound.

Import Domain.

(** The double quote, byte 34. *)
Definition dquote : string := String (ascii_of_nat 34) EmptyString.

(** [%d] of a non-negative integer. *)
Definition fmtInt (z : Z) : string :=
  NilZero.string_of_uint (N.to_uint (Z.to_N z)).

(** [IP.String] prints an address that [To4] accepts as a dotted quad; the
    printer of the other addresses is the library's and a parameter here. *)
Definition ipString (ip6String : Net.IP -> string) (ip : Net.IP) : string :=
  match Net.To4 ip with
  | Some [a; b; c; d] =>
      (fmtInt a ++ "." ++ fmtInt b ++ "." ++ fmtInt c ++ "." ++ fmtInt d)%string
  | _ => ip6String ip
  end.

(** The prefix [UpdateIps] looks for: local-data, colon, space, a double
    quote, the hostname and a space. *)
Definition ownedPrefix (dnsRecord : string) : string :=
  ("local-data: " ++ dquote ++ dnsRecord ++ " ")%string.

Definition recordToUnbound (ip6String : Net.IP -> string)
    (hostname : string) (r : ManagedDnsRecord) : string :=
  (ownedPrefix hostname ++ fmtInt (Ttl (record r)) ++ " " ++ DnsType (record r)
     ++ " " ++ ipString ip6String (Ip (record r)) ++ dquote)%string.

(** [strings.HasPrefix] *)
Definition HasPrefix (s p : string) : bool := String.prefix p s.

(** [UnboundConfWrapper]: what [UpdateIps] asks of the file.  The state of
    an implementation is passed along; a read leaves it as it is. *)
Class UnboundConfWrapper (S : Type) := {
  ReadConf : S -> list string + error;
  WriteConf : list string -> S -> S * option error
}.

(** The double of the tests: [ReadConf] hands out [read] and [readErr],
    [WriteConf] keeps its argument in [written] and hands out [writeErr]. *)
Record dummyUnboundFs := mkDummy {
  read : list string;
  readErr : option error;
  written : list string;
  writeErr : option error
}.

#[export] Instance dummyUnboundFs_wrapper : UnboundConfWrapper dummyUnboundFs := {|
  ReadConf d := match readErr d with Some e => inr e | None => inl (read d) end;
  WriteConf conf d := (mkDummy (read d) (readErr d) conf (writeErr d), writeErr d)
|}.

(** The line feed, byte 10. *)
Definition newline : ascii := ascii_of_nat 10.

(** The white space of [strings.TrimSpace] among the bytes below 128; the
    files dealt with here are taken to hold no others. *)
Definition isSpace (c : ascii) : bool :=
  let n := nat_of_ascii c in
  ((9 <=? n)%nat && (n <=? 13)%nat) || Nat.eqb n 32.

Fixpoint trimLeft (s : string) : string :=
  match s with
  | String c rest => if isSpace c then trimLeft rest else s
  | EmptyString => EmptyString
  end.

Fixpoint trimRight (s : string) : string :=
  match s with
  | String c rest =>
      match trimRight rest with
      | EmptyString => if isSpace c then EmptyString else String c EmptyString
      | rest' => String c rest'
      end
  | EmptyString => EmptyString
  end.

(** [strings.TrimSpace] *)
Definition TrimSpace (s : string) : string := trimRight (trimLeft s).

(** [strings.Split] at the line feed: one piece more than there are line
    feeds; the empty string gives one empty piece. *)
Fixpoint SplitLines (s : string) : list string :=
  match s with
  | EmptyString => [EmptyString]
  | String c rest =>
      if Ascii.eqb c newline then EmptyString :: SplitLines rest
      else match SplitLines rest with
           | piece :: pieces => String c piece :: pieces
           | [] => [String c EmptyString]
           end
  end.

(** [strings.Join] with the line feed *)
Fixpoint JoinLines (l : list string) : string :=
  match l with
  | [] => EmptyString
  | [x] => x
  | x :: rest => (x ++ String newline (JoinLines rest))%string
  end.

(** [FsImpl]: the bytes of the file at [filePath], and whether
    [os.ReadFile] and [os.WriteFile] fail; a write that fails is taken to
    leave the bytes as they were. *)
Record FsImpl := mkFsImpl {
  fileBytes : string;
  readFails : option string;
  writeFails : option error
}.

#[export] Instance FsImpl_wrapper : UnboundConfWrapper FsImpl := {|
  ReadConf u :=
    match readFails u with
    | Some msg => inr (ErrOther ("failed to read zone file: " ++ msg))
    | None => inl (SplitLines (TrimSpace (fileBytes u)))
    end;
  WriteConf conf u :=
    match writeFails u with
    | Some e => (u, Some e)
    | None => (mkFsImpl (JoinLines conf) (readFails u) (writeFails u), None)
    end
|}.

(** [wantedRecords]: the desired line as key; the value is nil or points to
    the index of the line in the file. *)
Definition wantedInit (ip6String : Net.IP -> string) (dnsRecord : string)
    (records : list ManagedDnsRecord) : gmap string (option nat) :=
  fold_left (fun w r => <[recordToUnbound ip6String dnsRecord r := None]> w)
            records ∅.

(** One round of the loop over the lines.  The inner loop over the keys
    finds the line exactly when it is a key, and then stores a pointer to
    the index under it; each round has an index variable of its own (the
    loop variables of Go 1.22, the release that brought the [cmp.Or] the
    sources call), so the pointer keeps the index of its round. *)
Definition scanLine (dnsRecord : string)
    (st : gmap string (option nat) * list nat) (il : nat * string)
    : gmap string (option nat) * list nat :=
  let '(wantedRecords, recordsToRemove) := st in
  let '(index, line) := il in
  if HasPrefix line (ownedPrefix dnsRecord) then
    match wantedRecords !! line with
    | Some _ => (<[line := Some index]> wantedRecords, recordsToRemove)
    | None => (wantedRecords, recordsToRemove ++ [index])
    end
  else st.

Definition scan (dnsRecord : string) (wantedRecords : gmap string (option nat))
    (lines : list string) : gmap string (option nat) * list nat :=
  fold_left (scanLine dnsRecord) (imap (fun i l => (i, l)) lines)
            (wantedRecords, []).

(** The keys still at nil, in the order the map is walked. *)
Definition collectMissing (walk : list (string * option nat)) : list string :=
  omap (fun kv => match snd kv with None => Some (fst kv) | Some _ => None end) walk.

(** [removeIndices] *)
Definition removeIndices (slice : list string) (indicesToRemove : list nat)
    : list string :=
  omap (fun iv => if bool_decide (fst iv ∈ indicesToRemove) then None
                  else Some (snd iv))
       (imap (fun i v => (i, v)) slice).

(** The index the insertion uses: the one stored under the key that the
    walk over the map meets last among those not nil, 0 if there is none. *)
Definition anchorIndex (walk : list (string * option nat)) : nat :=
  fold_left (fun idx kv => match snd kv with Some i => i | None => idx end) walk 0%nat.

(** [slices.Insert]: panics when the index lies beyond the length. *)
Definition slicesInsert (s : list string) (i : nat) (v : list string)
    : option (list string) :=
  if (i <=? length s)%nat then Some (take i s ++ v ++ drop i s) else None.

(** How a call ends: in a panic, or with the two results; [written] is
    the argument of the call of [WriteConf], if there was one, and [fs] the
    state of the file afterwards. *)
Inductive Outcome (S : Type) :=
| Panic
| Return (changed : bool) (err : option error)
         (written : option (list string)) (fs : S).

Arguments Panic {S}.
Arguments Return {S} changed err written fs.

(** [Unbound.UpdateIps].  [rangeMissing] and [rangeAnchor] give the order of
    the two walks over the map whose order shows in the result. *)
Definition UpdateIps {S : Type} `{!UnboundConfWrapper S}
    (ip6String : Net.IP -> string)
    (rangeMissing rangeAnchor :
       list (string * option nat) -> list (string * option nat))
    (fs : S) (dnsRecord : string) (records : list ManagedDnsRecord) : Outcome S :=
  match ReadConf fs with
  | inr err => Return false (Some err) None fs
  | inl lines =>
      let '(wantedRecords, recordsToRemove) :=
        scan dnsRecord (wantedInit ip6String dnsRecord records) lines in
      let missingRecords := collectMissing (rangeMissing (map_to_list wantedRecords)) in
      if Nat.eqb (length missingRecords) 0 && Nat.eqb (length recordsToRemove) 0
      then Return false None None fs
      else
        let lines1 :=
          if (0 <? length recordsToRemove)%nat
          then removeIndices lines recordsToRemove else lines in
        let lines2 :=
          if Nat.eqb (length missingRecords) (length records)
          then Some (lines1 ++ missingRecords)
          else slicesInsert lines1 (anchorIndex (rangeAnchor (map_to_list wantedRecords)))
                            missingRecords in
        match lines2 with
        | None => Panic
        | Some lines3 =>
            let '(fs', err) := WriteConf lines3 fs in
            Return true err (Some lines3) fs'
        end
  end.

(** The lines a call handed to [WriteConf]. *)
Definition written_of {S : Type} (o : Outcome S) : option (list string) :=
  match o with
  | Panic => None
  | Return _ _ written _ => written
  end.

(** *** Terms of the properties, and sample data *)

(** A line is owned by a hostname when it starts with the prefix of that
    hostname. *)
Definition owned (dnsRecord : string) (line : string) : Prop :=
  HasPrefix line (ownedPrefix dnsRecord) = true.

#[export] Instance owned_dec dnsRecord line : Decision (owned dnsRecord line).
Proof. unfold owned. apply _. Defined.

(** The canonical lines of the desired records, in their order. *)
Definition desiredLines (ip6String : Net.IP -> string) (dnsRecord : string)
    (records : list ManagedDnsRecord) : list string :=
  recordToUnbound ip6String dnsRecord <$> records.

(** An owned line that is no desired line. *)
Definition stale (dnsRecord : string) (D : list string) (l : string) : Prop :=
  owned dnsRecord l /\ l ∉ D.

#[export] Instance stale_dec dnsRecord D l : Decision (stale dnsRecord D l).
Proof. unfold stale. apply _. Defined.






(** A line of local data with the text [s] between the quotes. *)
Definition line (s : string) : string :=
  ("local-data: " ++ dquote ++ s ++ dquote)%string.

(** A healthy A record of the host [h]. *)
Definition rec4 (a b c d ttl : Z) : ManagedDnsRecord :=
  mkManaged (mkDnsRecord 200 "A" (Net.v4InV6Prefix ++ [a; b; c; d]) ttl)
            "h" (Status.Healthy 5 5 5).

Definition noIp6 : Net.IP -> string := fun _ => "::"%string.

Definition walkId : list (string * option nat) -> list (string * option nat) :=
  fun l => l.

Definition walkRev : list (string * option nat) -> list (string * option nat) :=
  @rev _.

(** The file that holds the given lines. *)
Definition fileOf (lines : list string) : FsImpl :=
  mkFsImpl (JoinLines lines) None None.


(** The desired line of one record stands twice in the file. *)
Definition fsDuplicate : FsImpl :=
  fileOf [line "h 30 A 10.0.0.1"; line "h 30 A 10.0.0.1"].

(** A file with a line of another TTL and a line that is not owned. *)
Definition fsDrift : FsImpl := fileOf [line "h 60 A 10.0.0.1"; "server:"%string].

Definition fsDriftFixed : FsImpl :=
  fileOf ["server:"%string; line "h 30 A 10.0.0.1"].

(** A stale line in front of a line that looks like a line of the host but
    stands behind two blanks, and so is not owned. *)
Definition fsIndented : FsImpl :=
  fileOf [line "h 60 A 10.0.0.1"; ("  " ++ line "h 99 A 10.0.0.9")%string].

Definition fsIndented1 : FsImpl :=
  fileOf [("  " ++ line "h 99 A 10.0.0.9")%string; line "h 30 A 10.0.0.1"].

(** Two of three desired lines stand in the file, around a line that is
    not owned. *)
Definition fsTwo : FsImpl :=
  fileOf [line "h 30 A 10.0.0.1"; "server:"%string; line "h 30 A 10.0.0.2"].

Definition threeRecords : list ManagedDnsRecord :=
  [rec4 10 0 0 1 30; rec4 10 0 0 2 30; rec4 10 0 0 3 30].

(** One of two desired lines stands in the file, and nothing is stale. *)
Definition fsOne : FsImpl := fileOf ["server:"%string; line "h 30 A 10.0.0.1"].

Definition twoRecords : list ManagedDnsRecord :=
  [rec4 10 0 0 1 30; rec4 10 0 0 2 30].

Definition fsOneFixed : FsImpl :=
  fileOf ["server:"%string; line "h 30 A 10.0.0.2"; line "h 30 A 10.0.0.1"].

(** Stand-ins for the parser and the printer of IPv6 addresses, right for
    the one address the tests use. *)
Definition testParseIPv6 (s : string) : option (list Z) :=
  if String.eqb s "::1" then Some [0; 0; 0; 0; 0; 0; 0; 0; 0; 0; 0; 0; 0; 0; 0; 1]
  else None.

Definition testIp6String : Net.IP -> string := fun _ => "::1"%string.

(** [mustNewDnsRecord] *)
Definition mustNewDnsRecord (ip ty : string) (prio ttl : Z) : option ManagedDnsRecord :=
  match NewDnsRecord testParseIPv6
          (mkRecordConfig ip ty prio ttl (Status.mkStatusConfig 0 0 0 0)) with
  | inl r => Some (NewManagedDnsRecord "hostname" r (Status.mkStatusConfig 0 0 0 0))
  | inr _ => None
  end.

Definition testFs (lines : list string) : dummyUnboundFs := mkDummy lines None [] None.

Definition runTest (lines : list string) (records : list (option ManagedDnsRecord))
    : option (bool * option error * list string) :=
  match UpdateIps testIp6String walkId walkId (testFs lines) "test-01.my.tld"
          (omap id records) with
  | Return changed err _ fs => Some (changed, err, written fs)
  | Panic => None
  end.

End Unbound.

(** ** Package internal: the record manager *)

Module Manager.

Import Domain Unbound.

(** What a health check hands back, as [Eval] reads it: an error, or
    healthy, or not. *)
Definition inputOf (res : bool * option error) : Status.Input :=
  match res with
  | (_, Some _) => Status.E
  | (true, None) => Status.H
  | (false, None) => Status.U
  end.

(** [ManagedDnsRecord.Eval], given the result of the health check: the
    state is told of it, and what the record holds afterwards is the state
    the call left or set. *)
Definition Eval (res : bool * option error) (r : ManagedDnsRecord) : ManagedDnsRecord :=
  mkManaged (record r) (Hostname r) (Status.step (status r) (inputOf res)).

(** [isInitialState] *)
Definition isInitialState (ips : list ManagedDnsRecord) : bool :=
  forallb (fun ip => String.eqb (Status.Name (status ip)) Status.InitialStateName) ips.

(** The gauges [updateMetrics] sets for one hostname: [active_record] for
    every address, in the order of the records, and the two totals. *)
Record Gauges := mkGauges {
  activeRecord : list (string * Z);
  activeRecords : nat;
  configuredRecords : nat
}.

(** [updateMetrics]; [ipStr] is the text of the address of a record and
    [activeIps] the keys of the map of that name. *)
Definition updateMetrics (ipStr : ManagedDnsRecord -> string)
    (ips : list ManagedDnsRecord) (activeIps : gset string) : Gauges :=
  let '(cntActive, settings) :=
    fold_left
      (fun acc ip =>
         if bool_decide (ipStr ip ∈ activeIps)
         then (S (fst acc), snd acc ++ [(ipStr ip, 1)])
         else (fst acc, snd acc ++ [(ipStr ip, 0)]))
      ips (0%nat, []) in
  mkGauges settings cntActive (length ips).

(** The gauges [filterHealthyIps] leaves behind through its deferred call
    of [updateMetrics]: the map holds the addresses of the records it
    returns. *)
Definition selectionGauges (ipStr : ManagedDnsRecord -> string)
    (ips selected : list ManagedDnsRecord) : Gauges :=
  updateMetrics ipStr ips (list_to_set (ipStr <$> selected)).

(** What happens in a round, in order: the two log lines about a hostname
    without healthy address, the increments of the error counter, and the
    calls of the service. *)
Inductive Event :=
| Warned (hostname : string)
| Recovered (hostname : string)
| ErrorCounted (hostname reason : string)
| ReloadCalled
| RestartCalled.



(** What the manager leaves to Go and to the world around it: the sort and
    the walks over maps, the printer of IPv6 addresses, and the checker of
    the resolver's configuration. *)
Record Env (S : Type) := mkEnv {
  envSort : (ManagedDnsRecord -> ManagedDnsRecord -> Z) ->
            list ManagedDnsRecord -> list ManagedDnsRecord;
  envRangeOrder : list (string * list ManagedDnsRecord) ->
                  list (string * list ManagedDnsRecord);
  envIp6String : Net.IP -> string;
  envRangeMissing : list (string * option nat) -> list (string * option nat);
  envRangeAnchor : list (string * option nat) -> list (string * option nat);
  envValidateConfig : S -> option error
}.

Arguments envSort {S}.
Arguments envRangeOrder {S}.
Arguments envIp6String {S}.
Arguments envRangeMissing {S}.
Arguments envRangeAnchor {S}.
Arguments envValidateConfig {S}.

(** The part of [RecordManager] that changes: the file behind [dnsDb], the
    map [unhealthyHosts], and the events so far. *)
Record State (S : Type) := mkState {
  dnsDb : S;
  unhealthyHosts : gmap string bool;
  events : list Event
}.

Arguments mkState {S}.
Arguments dnsDb {S}.
Arguments unhealthyHosts {S}.
Arguments events {S}.

(** [h.unhealthyHosts[hostname]]: false for a key that is not there. *)
Definition isUnhealthyHost {S} (st : State S) (hostname : string) : bool :=
  default false (unhealthyHosts st !! hostname).

(** [RecordManager.updateRecords]; [None] stands for the panic of
    [UpdateIps]. *)
Definition updateRecords {S : Type} `{!UnboundConfWrapper S} (env : Env S)
    (st : State S) (hostname : string) (ips : list ManagedDnsRecord)
    : option (bool * State S) :=
  let ipsToUpdate := filterHealthyIps (envSort env) (envRangeOrder env) hostname ips in
  if Nat.eqb (length ipsToUpdate) 0 then
    if negb (isUnhealthyHost st hostname) && negb (isInitialState ips) then
      Some (false, mkState (dnsDb st) (<[hostname := true]> (unhealthyHosts st))
                           (events st ++ [Warned hostname]))
    else Some (false, st)
  else
    let st1 :=
      if isUnhealthyHost st hostname then
        mkState (dnsDb st) (<[hostname := false]> (unhealthyHosts st))
                (events st ++ [Recovered hostname])
      else st in
    match UpdateIps (envIp6String env) (envRangeMissing env) (envRangeAnchor env)
                    (dnsDb st1) hostname ipsToUpdate with
    | Panic => None
    | Return updated (Some _) _ fs' =>
        Some (false, mkState fs' (unhealthyHosts st1)
                             (events st1 ++ [ErrorCounted hostname "update_ips"]))
    | Return updated None _ fs' =>
        if updated then
          match envValidateConfig env fs' with
          | Some _ =>
              Some (false, mkState fs' (unhealthyHosts st1)
                             (events st1 ++ [ErrorCounted hostname "dns_invalid_config"]))
          | None => Some (true, mkState fs' (unhealthyHosts st1) (events st1))
          end
        else Some (false, mkState fs' (unhealthyHosts st1) (events st1))
    end.




End Manager.

(** ** Package conf: the checks of [Config.Validate] *)

Module Conf.

Import Domain.

(** The errors [Validate] gathers. *)
Inductive ValidationError :=
| StructInvalid (err : error)
| InvalidHostname (hostname : string)
| TooFewRecords (hostname : string)
| DuplicatedPrio (prio : Z) (hostname : string)
| DuplicatedIp (ip : string) (hostname : string).

(** The loop over the records of one hostname, with the two maps of what
    has been seen. *)
Fixpoint checkDuplicates (hostname : string) (ips : list RecordConfig)
    (seenPrios : gset Z) (seenIps : gset string) : list ValidationError :=
  match ips with
  | [] => []
  | ip :: rest =>
      (if bool_decide (cfgPrio ip ∈ seenPrios)
       then [DuplicatedPrio (cfgPrio ip) hostname] else [])
      ++ (if bool_decide (cfgIP ip ∈ seenIps)
          then [DuplicatedIp (cfgIP ip) hostname] else [])
      ++ checkDuplicates hostname rest ({[cfgPrio ip]} ∪ seenPrios)
                         ({[cfgIP ip]} ∪ seenIps)
  end.

Definition checkHost (validHostname : string -> bool)
    (kv : string * list RecordConfig) : list ValidationError :=
  (if validHostname (fst kv) then [] else [InvalidHostname (fst kv)])
  ++ (if (length (snd kv) <? 2)%nat then [TooFewRecords (fst kv)] else [])
  ++ checkDuplicates (fst kv) (snd kv) ∅ ∅.

(** [Config.Validate]: the errors it appends; it returns nil exactly when
    there are none.  [structErr] is what the check of the struct tags gives,
    [validHostname] the check of a hostname, both by the validator library;
    [records] is the map of the configuration in the order of the walk. *)
Definition Validate (structErr : option error) (validHostname : string -> bool)
    (records : list (string * list RecordConfig)) : list ValidationError :=
  match structErr with Some e => [StructInvalid e] | None => [] end
  ++ concat (checkHost validHostname <$> records).

End Conf.

(** ** Terms of the further properties *)

Module Terms.

Import Domain Unbound Manager.

(** A policy as the configuration admits it: every streak at least 1 (and
    within the range of [int]). *)
Definition validPolicy (opts : Status.StatusConfig) : Prop :=
  1 <= Status.HealthyStreak opts < 2 ^ 63 /\
  1 <= Status.UnhealthyStreak opts < 2 ^ 63 /\
  1 <= Status.InitialHealthyStreak opts < 2 ^ 63.

(** The two thresholds a state carries. *)
Definition thresholds (s : Status.State) : Z * Z :=
  match s with
  | Status.Initial _ _ h u => (h, u)
  | Status.Healthy _ h u => (h, u)
  | Status.Unhealthy _ h u => (h, u)
  end.

Definition isError (i : Status.Input) : bool :=
  match i with Status.E => true | _ => false end.

Definition isHealthyInput (i : Status.Input) : bool :=
  match i with Status.H => true | _ => false end.

(** The number of probes that did not end in an error. *)
Definition nonErrors (inputs : list Status.Input) : nat :=
  length (List.filter (fun i => negb (isError i)) inputs).

(** What holds of every state a record reaches from its construction. *)
Definition reachableShape (opts : Status.StatusConfig) (s : Status.State) : Prop :=
  match s with
  | Status.Initial c last h u =>
      h = Status.HealthyStreak opts /\ u = Status.UnhealthyStreak opts /\
      last = EmptyString /\ 1 <= c <= Status.InitialHealthyStreak opts
  | Status.Healthy c h u =>
      h = Status.HealthyStreak opts /\ u = Status.UnhealthyStreak opts /\
      1 <= c <= Z.max h u
  | Status.Unhealthy c h u =>
      h = Status.HealthyStreak opts /\ u = Status.UnhealthyStreak opts /\
      1 <= c <= u
  end.

(** A record after a series of dials of the TCP checker. *)
Definition evalDials (ds : list Tcp.DialResult) (r : ManagedDnsRecord) : ManagedDnsRecord :=
  fold_left (fun r d => Eval (Tcp.IsHealthy d) r) ds r.

(** A dial that failed, and not because the connection was refused. *)
Definition dialFailed (d : Tcp.DialResult) : Prop :=
  exists e, snd d = Some e /\ errors_Is e ECONNREFUSED = false.

(** A hostname that holds no blank. *)
Fixpoint noBlank (s : string) : bool :=
  match s with
  | EmptyString => true
  | String c rest => negb (Ascii.eqb c " "%char) && noBlank rest
  end.

(** How often a line stands in a sequence of lines. *)
Definition occurrences (k : string) (lines : list string) : nat :=
  length (filter (fun l => l = k) lines).

(** The same surroundings with another checker of the configuration. *)
Definition withValidate {S} (validate : S -> option error) (env : Env S) : Env S :=
  {| envSort := envSort env;
     envRangeOrder := envRangeOrder env;
     envIp6String := envIp6String env;
     envRangeMissing := envRangeMissing env;
     envRangeAnchor := envRangeAnchor env;
     envValidateConfig := validate |}.


(** No record of the list is healthy. *)
Definition noneHealthy (ips : list ManagedDnsRecord) : Prop :=
  forall r, r ∈ ips -> isHealthyState r = false.

(** Surroundings for the examples: merge sort, the walks in the order of
    the lists, and a checker of the configuration that accepts or rejects
    everything. *)
Definition sampleEnv (accept : bool) : Env FsImpl :=
  {| envSort := mergeSortFunc;
     envRangeOrder := fun l => l;
     envIp6String := noIp6;
     envRangeMissing := walkId;
     envRangeAnchor := walkId;
     envValidateConfig :=
       fun _ => if accept then None else Some (ErrOther "unbound-checkconf failed") |}.

(** Two records of the host [h], both unhealthy. *)
Definition unhealthyPair : list ManagedDnsRecord :=
  [ mkManaged (mkDnsRecord 200 "A" (Net.v4InV6Prefix ++ [10; 0; 0; 1]) 30) "h"
              (Status.Unhealthy 5 5 5);
    mkManaged (mkDnsRecord 100 "A" (Net.v4InV6Prefix ++ [10; 0; 0; 2]) 30) "h"
              (Status.Unhealthy 5 5 5) ].

End Terms.

(** * Properties *)

Lemma int_wrap_id z : int_range z -> int_wrap z = z.
Proof.
  unfold int_range, int_wrap. intros Hz.
  rewrite Z.mod_small; lia.
Qed.

(** ** The state machine *)

Module StatusProps.

Import Status.

Lemma dec_pos c : 1 <= c -> int_range c -> dec c = c - 1.
Proof.
  intros Hc Hr. unfold dec. apply int_wrap_id.
  unfold int_range in *. lia.
Qed.

Lemma run_app s xs ys : run s (xs ++ ys) = run (run s xs) ys.
Proof. unfold run. apply fold_left_app. Qed.

Lemma repeat_snoc {A} (x : A) n : repeat x (S n) = repeat x n ++ [x].
Proof. induction n as [|n IH]; simpl in *; [done | by rewrite <- IH]. Qed.

(** Counting down in [Unhealthy]: [k] healthy probes, fewer than the
    streak, only lower the counter. *)
Lemma unhealthy_countdown k c h u :
  Z.of_nat k < c -> int_range c ->
  run (Unhealthy c h u) (repeat H k) = Unhealthy (c - Z.of_nat k) h u.
Proof.
  induction k as [|k IH]; intros Hk Hr.
  - simpl. f_equal. lia.
  - rewrite repeat_snoc, run_app, IH by (done || lia). simpl.
    rewrite dec_pos by (unfold int_range in *; lia).
    destruct (Z.leb_spec (c - Z.of_nat k - 1) 0) as [Hle|Hgt]; [lia|].
    f_equal. lia.
Qed.

Lemma healthy_countdown k c h u :
  Z.of_nat k < c -> int_range c ->
  run (Healthy c h u) (repeat U k) = Healthy (c - Z.of_nat k) h u.
Proof.
  induction k as [|k IH]; intros Hk Hr.
  - simpl. f_equal. lia.
  - rewrite repeat_snoc, run_app, IH by (done || lia). simpl.
    rewrite dec_pos by (unfold int_range in *; lia).
    destruct (Z.leb_spec (c - Z.of_nat k - 1) 0) as [Hle|Hgt]; [lia|].
    f_equal. lia.
Qed.

Lemma initial_countdown_U k c last h u :
  String.eqb last HealthyStateName = false ->
  Z.of_nat k < c -> int_range c ->
  run (Initial c last h u) (repeat U k) = Initial (c - Z.of_nat k) last h u.
Proof.
  intros Hlast. induction k as [|k IH]; intros Hk Hr.
  - simpl. f_equal. lia.
  - rewrite repeat_snoc, run_app, IH by (done || lia). simpl. rewrite Hlast.
    rewrite dec_pos by (unfold int_range in *; lia).
    destruct (Z.leb_spec (c - Z.of_nat k - 1) 0) as [Hle|Hgt]; [lia|].
    f_equal. lia.
Qed.

(** What the code does after a reset in [unhealthy]: the counter stands at
    the unhealthy streak, and that many healthy probes, no fewer, lead to
    [healthy]. *)
Lemma unhealthy_reset_needs_unhealthy_streak c h u i k :
  i = U \/ i = E -> 1 <= u -> int_range u ->
  step (Unhealthy c h u) i = Unhealthy u h u /\
  (Z.of_nat k < u ->
     Name (run (Unhealthy u h u) (repeat H k)) = UnhealthyStateName) /\
  (Z.of_nat k = u ->
     run (Unhealthy u h u) (repeat H k) = newHealthy h u).
Proof.
  intros Hi Hu Hr. split; [by destruct Hi; subst|]. split.
  - intros Hk. by rewrite unhealthy_countdown.
  - intros Hk. destruct k as [|k]; [lia|].
    rewrite repeat_snoc, run_app, unhealthy_countdown by (done || lia). simpl.
    rewrite dec_pos by (unfold int_range in *; lia).
    destruct (Z.leb_spec (u - Z.of_nat k - 1) 0) as [Hle|Hgt]; [done|lia].
Qed.

(** After a reset in [healthy] the counter stands at the unhealthy streak,
    and that many failed probes, no fewer, lead to [unhealthy]. *)
Lemma healthy_reset_needs_unhealthy_streak c h u k :
  1 <= u -> int_range u ->
  step (Healthy c h u) H = Healthy u h u /\
  (Z.of_nat k < u ->
     Name (run (Healthy u h u) (repeat U k)) = HealthyStateName) /\
  (Z.of_nat k = u ->
     run (Healthy u h u) (repeat U k) = newUnhealthy h u).
Proof.
  intros Hu Hr. split; [done|]. split.
  - intros Hk. by rewrite healthy_countdown.
  - intros Hk. destruct k as [|k]; [lia|].
    rewrite repeat_snoc, run_app, healthy_countdown by (done || lia). simpl.
    rewrite dec_pos by (unfold int_range in *; lia).
    destruct (Z.leb_spec (u - Z.of_nat k - 1) 0) as [Hle|Hgt]; [done|lia].
Qed.

(** A record that only sees failed probes leaves [initial] after as many
    of them as the initial healthy streak says. *)
Lemma initial_all_unhealthy opts k :
  1 <= InitialHealthyStreak opts -> int_range (InitialHealthyStreak opts) ->
  (Z.of_nat k < InitialHealthyStreak opts ->
     Name (run (NewUnknownState opts) (repeat U k)) = InitialStateName) /\
  (Z.of_nat k = InitialHealthyStreak opts ->
     Name (run (NewUnknownState opts) (repeat U k)) = UnhealthyStateName).
Proof.
  intros Hpos Hr. unfold NewUnknownState. split; intros Hk.
  - by rewrite initial_countdown_U.
  - destruct k as [|k]; [lia|].
    rewrite repeat_snoc, run_app, initial_countdown_U by (done || lia). simpl.
    rewrite dec_pos by (unfold int_range in *; lia).
    destruct (Z.leb_spec (InitialHealthyStreak opts - Z.of_nat k - 1) 0); [done|lia].
Qed.

(** C1, at the policy healthy_streak = 3, unhealthy_streak = 1: a record
    driven from its construction into [unhealthy] and reset there by one
    more failed probe is [healthy] again after a single healthy probe,
    although the healthy streak of the policy is 3. *)
Theorem c1_unhealthy_reset_counts_unhealthy_streak :
  let policy := mkStatusConfig 3 1 1 1 in
  let afterReset := step (run (NewUnknownState policy) [U]) U in
  afterReset = Unhealthy 1 3 1 /\
  Name (run afterReset [H]) = HealthyStateName /\
  HealthyStreak policy = 3.
Proof. by vm_compute. Qed.

(** C5, at the default policy (initial_healthy_streak = 2): after one
    failed probe the healthy probe that follows finds the counter at 1, does
    not set it back to 2, and takes the record to [healthy]; and where the
    field [lastState] does hold the unhealthy name, the counter is set to
    the healthy streak of the steady states, not to the initial one. *)
Theorem c5_initial_flip_does_not_reset :
  let s0 := NewUnknownState defaultStatusConfig in
  run s0 [U] = Initial 1 "" 5 5 /\
  run s0 [U; H] = newHealthy 5 5 /\
  step (Initial 1 UnhealthyStateName 5 5) H = Initial 4 HealthyStateName 5 5.
Proof. by vm_compute. Qed.

(** C6, at the default policy (initial_healthy_streak = 2,
    initial_unhealthy_streak = 1): after one failed probe the record is
    still [initial]; it is [unhealthy] after two. *)
Theorem c6_initial_unhealthy_streak_unused :
  let s0 := NewUnknownState defaultStatusConfig in
  InitialUnhealthyStreak defaultStatusConfig = 1 /\
  Name (run s0 [U]) = InitialStateName /\
  Name (run s0 [U; U]) = UnhealthyStateName.
Proof. by vm_compute. Qed.

End StatusProps.

(** ** The TCP checker *)

Module TcpProps.

Import Tcp.

(** C8 as stated fails: for a dial that timed out the checker hands back
    the error, not the unhealthy result without error. *)
Lemma c8_timeout_gives_error :
  errors_Is dialTimeout ECONNREFUSED = false /\
  IsHealthy (None, Some dialTimeout) = (false, Some dialTimeout) /\
  IsHealthy (None, Some dialTimeout) <> (false, None).
Proof. by vm_compute. Qed.

(** C8, amended: the result is healthy without error exactly for a
    connection without error or an error that is connection refused; every
    other error of the dial, a timeout included, comes back as the error
    result [(false, err)]; the unhealthy result without error needs a dial
    that gave neither connection nor error. *)
Theorem c8_IsHealthy_results (c : option Conn) (err : option error) r :
  IsHealthy (c, err) = r ->
  (r = (true, None) <->
     (is_Some c /\ err = None) \/
     (exists e, err = Some e /\ errors_Is e ECONNREFUSED = true)) /\
  (forall e, err = Some e -> errors_Is e ECONNREFUSED = false ->
     r = (false, Some e)) /\
  (r = (false, None) <-> c = None /\ err = None).
Proof.
  intros <-. unfold IsHealthy.
  destruct c as [c|], err as [e|]; simpl;
    try destruct (errors_Is e ECONNREFUSED) eqn:He.
  all: repeat split.
  all: try (intros; simplify_eq; done).
  all: try (intros [? ?]; simplify_eq; done).
  all: try (intros _; right; by exists e).
  all: try (intros _; left; split; by eauto).
  all: try (intros [[Hc ?]|[e' [? ?]]]; simplify_eq; try congruence;
            by (destruct Hc as [? Hc]; inversion Hc)).
  all: try (intros e' ? ?; simplify_eq; congruence).
Qed.

Lemma c8_IsHealthy_results_witness :
  IsHealthy (None, Some dialTimeout) = (false, Some dialTimeout) /\
  ((false, Some dialTimeout) = (false, None) <->
     (None : option Conn) = None /\ Some dialTimeout = None).
Proof.
  split; [reflexivity|].
  apply (c8_IsHealthy_results None (Some dialTimeout) (false, Some dialTimeout)).
  reflexivity.
Defined.

End TcpProps.

(** ** Record construction and selection *)

Module DomainProps.

Import Domain.

(** *** NewDnsRecord *)

Lemma parseIPv4Fields_length s : forall first prevDot val digLen fields q,
  (length fields <= 3)%nat ->
  Net.parseIPv4Fields s first prevDot val digLen fields = Some q ->
  length q = 4%nat.
Proof.
  induction s as [|c rest IH]; intros first prevDot val digLen fields q Hlen; simpl.
  - destruct (Z.ltb_spec (Z.of_nat (length fields)) 3); [done|].
    intros [= <-]. rewrite length_app. simpl. lia.
  - destruct (Net.isDigit c).
    + destruct ((digLen =? 1) && (val =? 0)); [done|].
      destruct (255 <? val * 10 + Net.digitVal c); [done|].
      by apply IH.
    + destruct (Ascii.eqb c "."); [|done].
      destruct (first || match rest with [] => true | _ => false end || prevDot);
        [done|].
      destruct (Z.eqb_spec (Z.of_nat (length fields)) 3); [done|].
      apply IH. rewrite length_app. simpl. lia.
Qed.

Lemma To4_v4InV6 q : length q = 4%nat -> Net.To4 (Net.v4InV6Prefix ++ q) = Some q.
Proof.
  intros Hq. destruct q as [|a [|b [|c [|d [|? ?]]]]]; simplify_eq/=. done.
Qed.

(** Every IPv4 literal is accepted, whatever the record type. *)
Lemma NewDnsRecord_ipv4_any_type parseIPv6 conf q :
  Net.literalKind (list_ascii_of_string (cfgIP conf)) = Net.LitV4 ->
  Net.parseIPv4 (cfgIP conf) = Some q ->
  NewDnsRecord parseIPv6 conf =
    inl {| Priority := cfgPrio conf mod 2 ^ 8;
           DnsType := cfgRecordType conf;
           Ip := Net.v4InV6Prefix ++ q;
           Ttl := cfgTtl conf mod 2 ^ 16 |}.
Proof.
  intros Hkind Hparse. unfold NewDnsRecord, Net.ParseIP.
  rewrite Hkind, Hparse.
  rewrite To4_v4InV6; [done|].
  eapply parseIPv4Fields_length; [|exact Hparse]. simpl. lia.
Qed.

(** An address that [To4] refuses is accepted with type AAAA and with no
    other. *)
Lemma NewDnsRecord_not_v4 parseIPv6 conf ip :
  Net.ParseIP parseIPv6 (cfgIP conf) = Some ip -> Net.To4 ip = None ->
  (cfgRecordType conf = "AAAA"%string <->
   exists r, NewDnsRecord parseIPv6 conf = inl r).
Proof.
  intros Hp H4. unfold NewDnsRecord. rewrite Hp, H4. simpl.
  destruct (String.eqb_spec (cfgRecordType conf) "AAAA") as [Heq|Hne]; simpl.
  - split; [eauto|done].
  - split; [done|]. by intros [r ?].
Qed.

(** C3, at the address 192.168.1.1 with type AAAA: the construction
    succeeds, with any parser of IPv6 literals. *)
Theorem c3_ipv4_literal_with_AAAA_accepted parseIPv6 :
  NewDnsRecord parseIPv6
    (mkRecordConfig "192.168.1.1" "AAAA" 200 30 Status.defaultStatusConfig) =
  inl {| Priority := 200; DnsType := "AAAA";
         Ip := [0; 0; 0; 0; 0; 0; 0; 0; 0; 0; 255; 255; 192; 168; 1; 1];
         Ttl := 30 |}.
Proof. reflexivity. Qed.

(** *** filterHealthyIps *)

Lemma groupHealthy_snoc ips x :
  groupHealthy (ips ++ [x]) =
  if isHealthyState x then
    <[DnsType (record x) :=
        default [] (groupHealthy ips !! DnsType (record x)) ++ [x]]> (groupHealthy ips)
  else groupHealthy ips.
Proof. unfold groupHealthy. by rewrite fold_left_app. Qed.

Lemma groupHealthy_lookup ips ty :
  groupHealthy ips !! ty = nonNil (healthyOfType ty ips).
Proof.
  induction ips as [|x ips IH] using rev_ind; [done|].
  rewrite groupHealthy_snoc. unfold healthyOfType in *. rewrite filter_app.
  destruct (isHealthyState x) eqn:Hx.
  - destruct (decide (DnsType (record x) = ty)) as [<-|Hne].
    + rewrite lookup_insert_eq, IH.
      rewrite (filter_cons_True _ x) by done. simpl.
      by destruct (filter _ ips).
    + rewrite lookup_insert_ne, IH by done.
      rewrite (filter_cons_False _ x) by (intros [_ ?]; done).
      simpl. by rewrite app_nil_r.
  - rewrite IH, (filter_cons_False _ x) by (intros [? _]; congruence).
    simpl. by rewrite app_nil_r.
Qed.

Lemma fold_heads {A B} (f : A -> list B) (l : list A) (acc : list B) :
  fold_left (fun acc kv => match f kv with x :: _ => acc ++ [x] | [] => acc end) l acc
  = acc ++ omap (fun kv => head (f kv)) l.
Proof.
  revert acc. induction l as [|kv l IH]; intros acc; simpl.
  - by rewrite app_nil_r.
  - rewrite IH. destruct (f kv) as [|x xs]; simpl; [done|].
    by rewrite <- app_assoc.
Qed.

(** With distinct keys, and every entry yielding a record of the type of
    its key, the records of type [ty] among the results are as many as the
    entries under [ty]: one or none. *)
Lemma count_type_omap (f : string * list ManagedDnsRecord -> option ManagedDnsRecord)
    (L : list (string * list ManagedDnsRecord)) ty :
  NoDup L.*1 ->
  (forall kv, kv ∈ L -> exists r, f kv = Some r /\ DnsType (record r) = kv.1) ->
  length (filter (fun r => DnsType (record r) = ty) (omap f L))
  = if decide (ty ∈ L.*1) then 1%nat else 0%nat.
Proof.
  induction L as [|kv L IH]; intros Hnd Hf; [done|].
  rewrite fmap_cons in Hnd. apply NoDup_cons in Hnd as [Hnotin Hnd].
  destruct (Hf kv) as (r & Hr & Hty); [left|].
  change (omap f (kv :: L))
    with (match f kv with Some y => y :: omap f L | None => omap f L end).
  rewrite Hr, fmap_cons.
  specialize (IH Hnd (fun kv' Hin => Hf kv' (list_elem_of_further _ _ _ Hin))).
  destruct (decide (kv.1 = ty)) as [<-|Hne].
  - rewrite filter_cons_True by done. cbn [length]. rewrite IH.
    rewrite decide_False by done. rewrite decide_True by left. done.
  - rewrite filter_cons_False by congruence. rewrite IH.
    destruct (decide (ty ∈ L.*1)) as [Hin|Hnin].
    + rewrite decide_True by (by right). done.
    + rewrite decide_False; [done|]. intros Hin. apply elem_of_cons in Hin.
      destruct Hin as [?|?]; congruence.
Qed.

Lemma byPriority_iff a b :
  byPriority a b <-> Priority (record b) <= Priority (record a).
Proof.
  unfold byPriority, PriorityComparator, cmpCompare.
  destruct (Z.ltb_spec (Priority (record b)) (Priority (record a)));
    [lia|].
  destruct (Z.ltb_spec (Priority (record a)) (Priority (record b))); lia.
Qed.

#[local] Instance byPriority_trans : Transitive byPriority.
Proof. intros a b c. rewrite !byPriority_iff. lia. Qed.

#[local] Instance byPriority_total : Total byPriority.
Proof. intros a b. rewrite !byPriority_iff. lia. Qed.

Section Selection.

(** [slices.SortFunc] hands back the elements it was given, in an order the
    comparator agrees with; the walk over the map meets every entry once. *)
Variable SortFunc :
  (ManagedDnsRecord -> ManagedDnsRecord -> Z) ->
  list ManagedDnsRecord -> list ManagedDnsRecord.
Variable rangeOrder :
  list (string * list ManagedDnsRecord) -> list (string * list ManagedDnsRecord).

Hypothesis SortFunc_perm : forall l, SortFunc PriorityComparator l ≡ₚ l.
Hypothesis SortFunc_sorted :
  forall l, StronglySorted byPriority (SortFunc PriorityComparator l).
Hypothesis rangeOrder_perm : forall l, rangeOrder l ≡ₚ l.

Lemma filterHealthyIps_omap hostname ips :
  filterHealthyIps SortFunc rangeOrder hostname ips ≡ₚ
  omap (firstOf SortFunc) (map_to_list (groupHealthy ips)).
Proof.
  unfold filterHealthyIps.
  destruct (Nat.eqb_spec (size (groupHealthy ips)) 0) as [Hz|Hnz].
  - apply map_size_empty_iff in Hz. rewrite Hz, map_to_list_empty. done.
  - rewrite (fold_heads (fun kv => SortFunc PriorityComparator kv.2)). simpl.
    by rewrite rangeOrder_perm.
Qed.

(** The first record of a sorted group: a member of the group that no
    member outranks. *)
Lemma firstOf_group ips ty l :
  groupHealthy ips !! ty = Some l ->
  exists r, firstOf SortFunc (ty, l) = Some r /\ r ∈ ips /\ isHealthyState r = true /\
            DnsType (record r) = ty /\
            forall r', r' ∈ ips -> isHealthyState r' = true ->
                       DnsType (record r') = ty ->
                       Priority (record r') <= Priority (record r).
Proof.
  rewrite groupHealthy_lookup. intros Hl.
  assert (l = healthyOfType ty ips /\ l <> []) as [-> Hne].
  { destruct (healthyOfType ty ips); simplify_eq/=. done. }
  unfold firstOf. simpl.
  pose proof (SortFunc_perm (healthyOfType ty ips)) as Hperm.
  pose proof (SortFunc_sorted (healthyOfType ty ips)) as Hsorted.
  destruct (SortFunc PriorityComparator (healthyOfType ty ips)) as [|r rest].
  { apply Permutation_nil in Hperm. congruence. }
  exists r. split; [done|].
  assert (r ∈ healthyOfType ty ips) as Hr by (rewrite <- Hperm; left).
  apply list_elem_of_filter in Hr as [[Hh Hty] Hin].
  repeat split; try done.
  intros r' Hin' Hh' Hty'.
  assert (r' ∈ r :: rest) as Hr'.
  { rewrite Hperm. apply list_elem_of_filter. done. }
  apply StronglySorted_inv in Hsorted as [_ Hall].
  apply elem_of_cons in Hr' as [->|Hr']; [lia|].
  rewrite Forall_forall in Hall. by apply byPriority_iff, Hall.
Qed.

(** C7: for every type, the result holds one record of that type if some
    record of that type is healthy, and none otherwise; every record of the
    result is a healthy record of the input that has the highest priority
    among the healthy records of its type; with no healthy record the
    result is empty. *)
Theorem c7_filterHealthyIps_selects_top_priority hostname ips :
  let out := filterHealthyIps SortFunc rangeOrder hostname ips in
  (forall ty,
     length (filter (fun r => DnsType (record r) = ty) out)
     = if decide (healthyOfType ty ips = []) then 0%nat else 1%nat) /\
  (forall r, r ∈ out ->
     r ∈ ips /\ isHealthyState r = true /\
     forall r', r' ∈ ips -> isHealthyState r' = true ->
                DnsType (record r') = DnsType (record r) ->
                Priority (record r') <= Priority (record r)) /\
  ((forall r, r ∈ ips -> isHealthyState r = false) -> out = []).
Proof.
  intros out.
  assert (Hentries : forall kv, kv ∈ map_to_list (groupHealthy ips) ->
            exists r, firstOf SortFunc kv = Some r /\ DnsType (record r) = kv.1 /\
              r ∈ ips /\ isHealthyState r = true /\
              forall r', r' ∈ ips -> isHealthyState r' = true ->
                         DnsType (record r') = kv.1 ->
                         Priority (record r') <= Priority (record r)).
  { intros [ty l] Hin. apply elem_of_map_to_list in Hin.
    destruct (firstOf_group _ _ _ Hin) as (r & ? & ? & ? & ? & ?).
    exists r. done. }
  assert (Hmem : forall r, r ∈ out ->
     r ∈ ips /\ isHealthyState r = true /\
     forall r', r' ∈ ips -> isHealthyState r' = true ->
                DnsType (record r') = DnsType (record r) ->
                Priority (record r') <= Priority (record r)).
  { intros r Hr. unfold out in Hr. rewrite filterHealthyIps_omap in Hr.
    apply list_elem_of_omap in Hr as (kv & Hkv & Hf).
    destruct (Hentries kv Hkv) as (r0 & Hf0 & Hty & Hin & Hh & Hmax).
    assert (r0 = r) as -> by congruence.
    rewrite Hty. done. }
  split; [|split; [exact Hmem|]].
  - intros ty. unfold out. rewrite filterHealthyIps_omap.
    rewrite count_type_omap.
    + destruct (decide (ty ∈ (map_to_list (groupHealthy ips)).*1)) as [Hin|Hnin].
      * apply list_elem_of_fmap in Hin as ([ty' l] & -> & Hin).
        apply elem_of_map_to_list in Hin. rewrite groupHealthy_lookup in Hin.
        simpl. rewrite decide_False; [done|]. intros Heq. by rewrite Heq in Hin.
      * destruct (decide (healthyOfType ty ips = [])) as [|Hne]; [done|].
        exfalso. apply Hnin. apply list_elem_of_fmap.
        exists (ty, healthyOfType ty ips). split; [done|].
        apply elem_of_map_to_list. rewrite groupHealthy_lookup.
        by destruct (healthyOfType ty ips).
    + apply NoDup_fst_map_to_list.
    + intros kv Hkv. destruct (Hentries kv Hkv) as (r & ? & ? & _). eauto.
  - intros Hnone. destruct out as [|r rest] eqn:Hout; [done|].
    destruct (Hmem r) as (Hin & Hh & _); [left|].
    rewrite (Hnone r Hin) in Hh. done.
Qed.

End Selection.

Lemma mergeSortFunc_perm l : mergeSortFunc PriorityComparator l ≡ₚ l.
Proof. apply merge_sort_Permutation. Qed.

Lemma mergeSortFunc_sorted l :
  StronglySorted byPriority (mergeSortFunc PriorityComparator l).
Proof. apply (StronglySorted_merge_sort byPriority). Qed.

Lemma c7_filterHealthyIps_witness :
  (forall l, mergeSortFunc PriorityComparator l ≡ₚ l) /\
  (forall l, StronglySorted byPriority (mergeSortFunc PriorityComparator l)) /\
  (forall l : list (string * list ManagedDnsRecord), id l ≡ₚ l) /\
  (forall ty,
     length (filter (fun r => DnsType (record r) = ty)
               (filterHealthyIps mergeSortFunc id "xxx" sampleIps))
     = if decide (healthyOfType ty sampleIps = []) then 0%nat else 1%nat).
Proof.
  split; [exact mergeSortFunc_perm|].
  split; [exact mergeSortFunc_sorted|].
  split; [reflexivity|].
  apply (c7_filterHealthyIps_selects_top_priority mergeSortFunc id
           mergeSortFunc_perm mergeSortFunc_sorted
           (fun l => reflexivity (id l)) "xxx" sampleIps).
Defined.

(** TestComparator: the record of priority 200 sorts before the one of
    priority 50. *)
Example test_Comparator :
  let record0 := mkManaged (mkDnsRecord 50 "A" [192; 168; 1; 1] 60) "" (Status.Initial 0 "" 0 0) in
  let record1 := mkManaged (mkDnsRecord 200 "A" [10; 0; 0; 1] 60) "" (Status.Initial 0 "" 0 0) in
  head (mergeSortFunc PriorityComparator [record0; record1]) = Some record1.
Proof. by vm_compute. Qed.

(** Test_getHealthyIps: of three A records, one healthy and two unhealthy,
    the healthy one is selected. *)
Example test_getHealthyIps :
  let r1 := mkManaged (mkDnsRecord 250 "A" [192; 168; 1; 1] 60) "xxx" (Status.Healthy 0 0 0) in
  let r2 := mkManaged (mkDnsRecord 250 "A" [192; 168; 1; 2] 60) "xxx" (Status.Unhealthy 0 0 0) in
  let r3 := mkManaged (mkDnsRecord 250 "A" [192; 168; 1; 2] 60) "xxx" (Status.Unhealthy 0 0 0) in
  filterHealthyIps mergeSortFunc id "xxx" [r1; r2; r3] = [r1].
Proof. by vm_compute. Qed.

Example filterHealthyIps_sample :
  map (fun r => (DnsType (record r), Priority (record r)))
      (filterHealthyIps mergeSortFunc id "xxx" sampleIps)
  = [("AAAA"%string, 10); ("A"%string, 250)].
Proof. by vm_compute. Qed.

End DomainProps.

(** ** Reconciliation of the resolver file *)

Module UnboundProps.

Import Domain Unbound.

Lemma prefix_app (p s : string) : String.prefix p (p ++ s)%string = true.
Proof.
  induction p as [|a p IH]; simpl; [by destruct s|].
  by destruct (ascii_dec a a).
Qed.

Lemma recordToUnbound_owned ip6String dnsRecord r :
  owned dnsRecord (recordToUnbound ip6String dnsRecord r).
Proof. unfold owned, HasPrefix, recordToUnbound. apply prefix_app. Qed.

Lemma desiredLines_owned ip6String dnsRecord records k :
  k ∈ desiredLines ip6String dnsRecord records -> owned dnsRecord k.
Proof.
  intros Hk. apply list_elem_of_fmap in Hk as (r & -> & _).
  apply recordToUnbound_owned.
Qed.

Lemma wantedInit_lookup ip6String dnsRecord records k :
  wantedInit ip6String dnsRecord records !! k =
  if decide (k ∈ desiredLines ip6String dnsRecord records) then Some None else None.
Proof.
  unfold wantedInit, desiredLines.
  induction records as [|r records IH] using rev_ind.
  - simpl. by rewrite lookup_empty.
  - rewrite fold_left_app, fmap_app. simpl.
    destruct (decide (recordToUnbound ip6String dnsRecord r = k)) as [<-|Hne].
    + rewrite lookup_insert_eq. rewrite decide_True; [done|].
      apply elem_of_app. right. left.
    + rewrite lookup_insert_ne, IH by done.
      destruct (decide (k ∈ recordToUnbound ip6String dnsRecord <$> records)) as [Hin|Hnin].
      * rewrite decide_True; [done|]. apply elem_of_app. by left.
      * rewrite decide_False; [done|]. intros Hin. apply elem_of_app in Hin.
        destruct Hin as [?|Hin]; [done|].
        apply list_elem_of_singleton in Hin. congruence.
Qed.

(** *** The loop over the lines *)

Lemma scan_snoc dnsRecord w0 lines l :
  scan dnsRecord w0 (lines ++ [l]) =
  scanLine dnsRecord (scan dnsRecord w0 lines) (length lines, l).
Proof.
  unfold scan. rewrite imap_app, fold_left_app. simpl.
  by rewrite Nat.add_0_r.
Qed.

(** What the loop leaves behind: the keys are those it started with; a key
    it started with at nil is still at nil exactly when no line of the file
    is that key; an index stored under a key is that of a line equal to the
    key; and the indices to remove are those of the owned lines that are no
    key. *)
Lemma scan_spec dnsRecord w0 lines w rm :
  (forall k, k ∈ dom w0 -> owned dnsRecord k) ->
  scan dnsRecord w0 lines = (w, rm) ->
  (forall k, is_Some (w !! k) <-> is_Some (w0 !! k)) /\
  (forall k, w0 !! k = Some None -> (w !! k = Some None <-> k ∉ lines)) /\
  (forall k i, w !! k = Some (Some i) ->
     w0 !! k = Some (Some i) \/ lines !! i = Some k) /\
  (forall i, i ∈ rm <->
     exists l, lines !! i = Some l /\ owned dnsRecord l /\ w0 !! l = None).
Proof.
  intros Hown. revert w rm.
  induction lines as [|l lines IH] using rev_ind; intros w rm Hscan.
  - unfold scan in Hscan. simplify_eq/=.
    repeat split; try done.
    + intros _. apply not_elem_of_nil.
    + intros k i ?. by left.
    + intros Hin. by apply not_elem_of_nil in Hin.
    + intros (l & Hl & _). done.
  - rewrite scan_snoc in Hscan.
    destruct (scan dnsRecord w0 lines) as [w1 rm1] eqn:Hs1.
    destruct (IH w1 rm1 eq_refl) as (Hdom & Hnil & Hidx & Hrm).
    unfold scanLine in Hscan.
    assert (Hw1l : w1 !! l = None <-> w0 !! l = None).
    { rewrite !eq_None_not_Some. by rewrite Hdom. }
    destruct (HasPrefix l (ownedPrefix dnsRecord)) eqn:Hpre.
    + destruct (w1 !! l) as [v|] eqn:Hl; simplify_eq.
      * (* the line is a key: the index is stored under it *)
        split; [|split; [|split]].
        -- intros k. destruct (decide (l = k)) as [<-|Hne].
           ++ rewrite lookup_insert_eq, <- Hdom, Hl. split; eauto.
           ++ by rewrite lookup_insert_ne.
        -- intros k Hk0. destruct (decide (l = k)) as [<-|Hne].
           ++ rewrite lookup_insert_eq. split; [done|].
              intros Hnin. exfalso. apply Hnin, elem_of_app. right. left.
           ++ rewrite lookup_insert_ne, (Hnil k Hk0) by done.
              rewrite elem_of_app, list_elem_of_singleton. intuition congruence.
        -- intros k i. destruct (decide (l = k)) as [<-|Hne].
           ++ rewrite lookup_insert_eq. intros [= <-]. right.
              by rewrite lookup_app_r, Nat.sub_diag.
           ++ rewrite lookup_insert_ne by done. intros Hki.
              destruct (Hidx k i Hki) as [?|Hlk]; [by left|right].
              rewrite lookup_app_l; [done|]. by eapply lookup_lt_Some.
        -- intros i. rewrite Hrm. split.
           ++ intros (l' & Hl' & ? & ?). exists l'. split; [|done].
              rewrite lookup_app_l; [done|]. by eapply lookup_lt_Some.
           ++ intros (l' & Hl' & Ho & Hn). exists l'. split; [|done].
              apply lookup_app_Some in Hl' as [?|[Hge Hl']]; [done|].
              apply list_lookup_singleton_Some in Hl' as [_ <-].
              apply Hw1l in Hn. done.
      * (* the line is owned and no key: its index is to be removed *)
        split; [done|]. split; [|split].
        -- intros k Hk0. rewrite (Hnil k Hk0).
           rewrite elem_of_app, list_elem_of_singleton.
           assert (k <> l).
           { intros ->. assert (w0 !! l = None) by (by apply Hw1l). congruence. }
           intuition congruence.
        -- intros k i Hki. destruct (Hidx k i Hki) as [?|Hlk]; [by left|right].
           rewrite lookup_app_l; [done|]. by eapply lookup_lt_Some.
        -- intros i. rewrite elem_of_app, list_elem_of_singleton, Hrm. split.
           ++ intros [(l' & Hl' & ? & ?)| ->].
              ** exists l'. split; [|done].
                 rewrite lookup_app_l; [done|]. by eapply lookup_lt_Some.
              ** exists l. rewrite lookup_app_r, Nat.sub_diag by done.
                 split; [done|]. split; [done|]. by apply Hw1l.
           ++ intros (l' & Hl' & Ho & Hn).
              apply lookup_app_Some in Hl' as [?|[Hge Hl']]; [left; eauto|].
              apply list_lookup_singleton_Some in Hl' as [Hi _].
              right. lia.
    + (* the line is not owned: nothing changes *)
      simplify_eq. split; [done|]. split; [|split].
      * intros k Hk0. rewrite (Hnil k Hk0).
        rewrite elem_of_app, list_elem_of_singleton.
        assert (k <> l).
        { intros ->. assert (owned dnsRecord l) as Ho.
          { apply Hown, elem_of_dom. by rewrite Hk0. }
          unfold owned in Ho. congruence. }
        intuition congruence.
      * intros k i Hki. destruct (Hidx k i Hki) as [?|Hlk]; [by left|right].
        rewrite lookup_app_l; [done|]. by eapply lookup_lt_Some.
      * intros i. rewrite Hrm. split.
        -- intros (l' & Hl' & ? & ?). exists l'. split; [|done].
           rewrite lookup_app_l; [done|]. by eapply lookup_lt_Some.
        -- intros (l' & Hl' & Ho & Hn). exists l'. split; [|done].
           apply lookup_app_Some in Hl' as [?|[Hge Hl']]; [done|].
           apply list_lookup_singleton_Some in Hl' as [_ <-].
           unfold owned in Ho. congruence.
Qed.

(** *** The helpers of the rewrite *)

Lemma removeIndices_snoc slice l rm :
  removeIndices (slice ++ [l]) rm =
  removeIndices slice rm ++ (if bool_decide (length slice ∈ rm) then [] else [l]).
Proof.
  unfold removeIndices. rewrite imap_app, omap_app. simpl.
  rewrite Nat.add_0_r. by destruct (bool_decide (length slice ∈ rm)).
Qed.

(** When the indices are those of the lines with a property, removing
    them is filtering by the opposite. *)
Lemma removeIndices_filter (Q : string -> Prop) `{!forall l, Decision (Q l)}
    slice rm :
  (forall i l, slice !! i = Some l -> (i ∈ rm <-> Q l)) ->
  removeIndices slice rm = filter (fun l => ~ Q l) slice.
Proof.
  induction slice as [|l slice IH] using rev_ind; intros Hrm; [done|].
  rewrite removeIndices_snoc, filter_app, IH.
  - f_equal.
    assert (length slice ∈ rm <-> Q l) as Hl.
    { apply Hrm. by rewrite lookup_app_r, Nat.sub_diag. }
    destruct (decide (Q l)) as [Hq|Hq].
    + rewrite bool_decide_eq_true_2 by (by apply Hl).
      by rewrite filter_cons_False by (intros Hn; by apply Hn).
    + rewrite bool_decide_eq_false_2 by (by rewrite Hl).
      by rewrite filter_cons_True.
  - intros i l' Hi. apply Hrm. rewrite lookup_app_l; [done|].
    by eapply lookup_lt_Some.
Qed.

Lemma removeIndices_nil slice : removeIndices slice [] = slice.
Proof.
  induction slice as [|l slice IH] using rev_ind; [done|].
  rewrite removeIndices_snoc, IH.
  by rewrite bool_decide_eq_false_2 by apply not_elem_of_nil.
Qed.

Lemma removeIndices_guard slice rm :
  (if (0 <? length rm)%nat then removeIndices slice rm else slice)
  = removeIndices slice rm.
Proof. destruct rm; simpl; [by rewrite removeIndices_nil|done]. Qed.

Lemma collectMissing_elem walk k :
  k ∈ collectMissing walk <-> (k, None) ∈ walk.
Proof.
  unfold collectMissing. rewrite list_elem_of_omap. split.
  - intros ([k' [i|]] & Hin & Heq); simplify_eq/=. done.
  - intros Hin. by exists (k, None).
Qed.

Lemma collectMissing_NoDup walk : NoDup walk.*1 -> NoDup (collectMissing walk).
Proof.
  induction walk as [|[k v] walk IH]; intros Hnd; [constructor|].
  rewrite fmap_cons in Hnd. apply NoDup_cons in Hnd as [Hnin Hnd].
  unfold collectMissing in *.
  change (omap ?f ((k, v) :: walk))
    with (match f (k, v) with Some y => y :: omap f walk | None => omap f walk end).
  destruct v as [i|]; simpl; [by apply IH|].
  apply NoDup_cons. split; [|by apply IH].
  intros Hin. apply Hnin. apply collectMissing_elem in Hin.
  apply list_elem_of_fmap. by exists (k, None).
Qed.

(** The index of the insertion is 0 when no key holds an index, and else
    an index that some key holds. *)
Lemma anchorIndex_spec walk :
  ((forall kv, kv ∈ walk -> kv.2 = None) /\ anchorIndex walk = 0%nat) \/
  (exists k, (k, Some (anchorIndex walk)) ∈ walk).
Proof.
  unfold anchorIndex.
  induction walk as [|[k v] walk IH] using rev_ind.
  - left. split; [|done]. intros kv Hin. by apply not_elem_of_nil in Hin.
  - rewrite fold_left_app. simpl. destruct v as [i|].
    + right. exists k. apply elem_of_app. right. left.
    + destruct IH as [[Hnone Hz]|[k' Hin]].
      * left. split; [|done]. intros kv Hin. apply elem_of_app in Hin.
        destruct Hin as [?|Hin]; [by apply Hnone|].
        apply list_elem_of_singleton in Hin. by subst.
      * right. exists k'. apply elem_of_app. by left.
Qed.

Lemma slicesInsert_Some s i v lines3 :
  slicesInsert s i v = Some lines3 ->
  (i <= length s)%nat /\ lines3 = take i s ++ v ++ drop i s.
Proof.
  unfold slicesInsert. destruct (Nat.leb_spec i (length s)); [|done].
  by intros [= <-].
Qed.

Lemma inserted_perm (s v : list string) i : take i s ++ v ++ drop i s ≡ₚ s ++ v.
Proof.
  rewrite (Permutation_app_comm v), app_assoc. by rewrite take_drop.
Qed.

Lemma filter_all {A} (P : A -> Prop) `{!forall x, Decision (P x)} (l : list A) :
  (forall x, x ∈ l -> P x) -> filter P l = l.
Proof.
  induction l as [|x l IH]; intros Hall; [done|].
  rewrite filter_cons_True by (apply Hall; left).
  f_equal. apply IH. intros y Hy. apply Hall. by right.
Qed.

Lemma filter_none {A} (P : A -> Prop) `{!forall x, Decision (P x)} (l : list A) :
  (forall x, x ∈ l -> ~ P x) -> filter P l = [].
Proof.
  induction l as [|x l IH]; intros Hall; [done|].
  rewrite filter_cons_False by (apply Hall; left).
  apply IH. intros y Hy. apply Hall. by right.
Qed.

Lemma filter_ext_elem {A} (P Q : A -> Prop)
    `{!forall x, Decision (P x)} `{!forall x, Decision (Q x)} (l : list A) :
  (forall x, x ∈ l -> (P x <-> Q x)) -> filter P l = filter Q l.
Proof.
  induction l as [|x l IH]; intros Hall; [done|].
  assert (filter P l = filter Q l) as Hl.
  { apply IH. intros y Hy. apply Hall. by right. }
  destruct (decide (P x)) as [Hp|Hp].
  - rewrite !filter_cons_True by (done || by apply Hall; [left|]).
    by rewrite Hl.
  - rewrite !filter_cons_False; [done| |done].
    intros Hq. apply Hp, Hall; [left|done].
Qed.

(** Lines put in at an index leave the lines without their property as
    they were. *)
Lemma filter_inserted (P : string -> Prop) `{!forall x, Decision (P x)}
    (s v : list string) i :
  (forall x, x ∈ v -> P x) ->
  filter (fun x => ~ P x) (take i s ++ v ++ drop i s) = filter (fun x => ~ P x) s.
Proof.
  intros Hv. rewrite !filter_app.
  rewrite (filter_none (fun x => ~ P x) v) by (intros x Hx Hn; by apply Hn, Hv).
  simpl. by rewrite <- filter_app, take_drop.
Qed.

(** *** UpdateIps *)

Section Reconcile.

Variable ip6String : Net.IP -> string.
Variable dnsRecord : string.
Variable records : list ManagedDnsRecord.

Local Abbreviation D := (desiredLines ip6String dnsRecord records).

Section Scan.

Variable lines : list string.
Variable w : gmap string (option nat).
Variable rm : list nat.
Hypothesis Hscan :
  scan dnsRecord (wantedInit ip6String dnsRecord records) lines = (w, rm).

Lemma wantedInit_owned k :
  k ∈ dom (wantedInit ip6String dnsRecord records) -> owned dnsRecord k.
Proof.
  intros Hk. apply elem_of_dom in Hk as [v Hk].
  rewrite wantedInit_lookup in Hk.
  destruct (decide (k ∈ desiredLines ip6String dnsRecord records)); [|done].
  by eapply desiredLines_owned.
Qed.

Lemma scanned_nil k : w !! k = Some None <-> k ∈ D /\ k ∉ lines.
Proof.
  destruct (scan_spec _ _ _ _ _ wantedInit_owned Hscan) as (Hdom & Hnil & _ & _).
  pose proof (wantedInit_lookup ip6String dnsRecord records k) as H0.
  split.
  - intros Hk. assert (is_Some (w !! k)) as Hs by eauto.
    apply Hdom in Hs. destruct (decide (k ∈ D)) as [Hin|Hnin].
    + split; [done|]. by apply (Hnil k H0).
    + rewrite H0 in Hs. by destruct Hs.
  - intros [Hin Hnin]. rewrite decide_True in H0 by done. by apply (Hnil k H0).
Qed.

Lemma scanned_index k i : w !! k = Some (Some i) -> lines !! i = Some k /\ k ∈ D.
Proof.
  destruct (scan_spec _ _ _ _ _ wantedInit_owned Hscan) as (Hdom & _ & Hidx & _).
  pose proof (wantedInit_lookup ip6String dnsRecord records k) as H0.
  intros Hk. split.
  - destruct (Hidx k i Hk) as [Hw0|?]; [|done].
    rewrite H0 in Hw0. by destruct (decide (k ∈ D)).
  - assert (is_Some (w !! k)) as Hs by eauto.
    apply Hdom in Hs. rewrite H0 in Hs.
    destruct (decide (k ∈ D)); [done|by destruct Hs].
Qed.

Lemma scanned_remove i :
  i ∈ rm <-> exists l, lines !! i = Some l /\ stale dnsRecord D l.
Proof.
  destruct (scan_spec _ _ _ _ _ wantedInit_owned Hscan) as (_ & _ & _ & Hrm).
  rewrite Hrm. unfold stale. split; intros (l & Hl & Ho & Hn); exists l;
    (split; [done|]); (split; [done|]).
  - rewrite wantedInit_lookup in Hn.
    by destruct (decide (l ∈ D)).
  - rewrite wantedInit_lookup. by rewrite decide_False.
Qed.

Lemma scanned_remove_nil :
  rm = [] <-> forall l, l ∈ lines -> owned dnsRecord l -> l ∈ D.
Proof.
  split.
  - intros Hrm l Hl Ho. destruct (decide (l ∈ D)) as [|Hn]; [done|].
    apply list_elem_of_lookup in Hl as [i Hi].
    assert (i ∈ rm) as Hin by (apply scanned_remove; exists l; by repeat split).
    rewrite Hrm in Hin. by apply not_elem_of_nil in Hin.
  - intros Hall. apply elem_of_nil_inv. intros i Hin.
    apply scanned_remove in Hin as (l & Hl & Ho & Hn).
    apply Hn, Hall; [|done]. apply list_elem_of_lookup. eauto.
Qed.

(** The lines that survive the removal. *)
Lemma scanned_removed :
  (if (0 <? length rm)%nat then removeIndices lines rm else lines)
  = filter (fun l => ~ stale dnsRecord D l) lines.
Proof.
  assert (removeIndices lines rm = filter (fun l => ~ stale dnsRecord D l) lines)
    as Heq.
  { apply (removeIndices_filter (stale dnsRecord D)).
    intros i l Hl. rewrite scanned_remove. split.
    - intros (l' & Hl' & Hs). congruence.
    - intros Hs. eauto. }
  by rewrite removeIndices_guard.
Qed.

Section Walk.

Variable walk : list (string * option nat).
Hypothesis walk_perm : walk ≡ₚ map_to_list w.

Lemma missing_elem k : k ∈ collectMissing walk <-> k ∈ D /\ k ∉ lines.
Proof.
  rewrite collectMissing_elem, walk_perm, elem_of_map_to_list.
  apply scanned_nil.
Qed.

Lemma missing_NoDup : NoDup (collectMissing walk).
Proof.
  apply collectMissing_NoDup. rewrite walk_perm. apply NoDup_fst_map_to_list.
Qed.

Lemma missing_nil :
  collectMissing walk = [] <-> forall k, k ∈ D -> k ∈ lines.
Proof.
  split.
  - intros Hnil k Hk. destruct (decide (k ∈ lines)) as [|Hn]; [done|].
    assert (k ∈ collectMissing walk) as Hin by (by apply missing_elem).
    rewrite Hnil in Hin. by apply not_elem_of_nil in Hin.
  - intros Hall. destruct (collectMissing walk) as [|k rest] eqn:Hm; [done|].
    assert (k ∈ collectMissing walk) as Hin by (rewrite Hm; left).
    apply missing_elem in Hin as [Hin Hn]. exfalso. by apply Hn, Hall.
Qed.

(** With distinct desired lines, the missing ones are the desired lines
    that the file lacks, each once. *)
Lemma missing_perm :
  NoDup D -> collectMissing walk ≡ₚ filter (fun k => k ∉ lines) D.
Proof.
  intros Hnd. apply NoDup_Permutation.
  - apply missing_NoDup.
  - by apply NoDup_filter.
  - intros k. rewrite missing_elem, list_elem_of_filter. tauto.
Qed.

Lemma anchor_index :
  ((forall k, k ∈ D -> k ∉ lines) /\ anchorIndex walk = 0%nat) \/
  (exists k, lines !! anchorIndex walk = Some k /\ k ∈ D).
Proof.
  destruct (anchorIndex_spec walk) as [[Hnone Hz]|[k Hin]].
  - left. split; [|done]. intros k Hk Hin.
    apply list_elem_of_lookup in Hin as [i Hi].
    destruct (scan_spec _ _ _ _ _ wantedInit_owned Hscan) as (Hdom & _ & _ & _).
    assert (is_Some (w !! k)) as [v Hv].
    { apply Hdom. rewrite wantedInit_lookup. rewrite decide_True by done.
      eauto. }
    assert ((k, v) ∈ walk) as Hkv by (by rewrite walk_perm, elem_of_map_to_list).
    specialize (Hnone _ Hkv). simpl in Hnone. subst v.
    apply scanned_nil in Hv as [_ Hn]. apply Hn. apply list_elem_of_lookup. eauto.
  - right. exists k. revert Hin. generalize (anchorIndex walk). intros i Hin.
    rewrite walk_perm, elem_of_map_to_list in Hin.
    by apply scanned_index.
Qed.

End Walk.

End Scan.

End Reconcile.

Lemma not_stale_iff dnsRecord D l :
  (forall k, k ∈ D -> owned dnsRecord k) ->
  (owned dnsRecord l /\ ~ stale dnsRecord D l) <-> l ∈ D.
Proof.
  intros HD. unfold stale. split.
  - intros [Ho Hn]. destruct (decide (l ∈ D)); [done|]. exfalso. by apply Hn.
  - intros Hin. split; [by apply HD|]. by intros [_ ?].
Qed.

Section Calls.

Context {S : Type} `{!UnboundConfWrapper S}.

Variable ip6String : Net.IP -> string.
Variables rangeMissing rangeAnchor :
  list (string * option nat) -> list (string * option nat).

(** The walks over the map meet every entry once. *)
Hypothesis rangeMissing_perm : forall l, rangeMissing l ≡ₚ l.
Hypothesis rangeAnchor_perm : forall l, rangeAnchor l ≡ₚ l.

Lemma UpdateIps_read_error (fs : S) dnsRecord records err :
  ReadConf fs = inr err ->
  UpdateIps ip6String rangeMissing rangeAnchor fs dnsRecord records
  = Return false (Some err) None fs.
Proof. intros Hread. unfold UpdateIps. by rewrite Hread. Qed.

(** The two ways through [UpdateIps] after a read that succeeded. *)
Lemma UpdateIps_cases (fs : S) dnsRecord records lines :
  ReadConf fs = inl lines ->
  exists w rm,
    scan dnsRecord (wantedInit ip6String dnsRecord records) lines = (w, rm) /\
    let D := desiredLines ip6String dnsRecord records in
    let missing := collectMissing (rangeMissing (map_to_list w)) in
    let lines1 := filter (fun l => ~ stale dnsRecord D l) lines in
    (missing = [] /\ rm = [] /\
     UpdateIps ip6String rangeMissing rangeAnchor fs dnsRecord records
     = Return false None None fs) \/
    (~ (missing = [] /\ rm = []) /\
     UpdateIps ip6String rangeMissing rangeAnchor fs dnsRecord records
     = match (if Nat.eqb (length missing) (length records)
              then Some (lines1 ++ missing)
              else slicesInsert lines1
                     (anchorIndex (rangeAnchor (map_to_list w))) missing) with
       | None => Panic
       | Some lines3 =>
           Return true (WriteConf lines3 fs).2 (Some lines3) (WriteConf lines3 fs).1
       end).
Proof.
  intros Hread.
  destruct (scan dnsRecord (wantedInit ip6String dnsRecord records) lines)
    as [w rm] eqn:Hscan.
  exists w, rm. split; [done|]. intros D missing lines1.
  unfold UpdateIps. rewrite Hread, Hscan.
  rewrite (scanned_removed _ _ _ _ _ _ Hscan).
  fold D. fold missing. fold lines1.
  destruct (Nat.eqb (length missing) 0 && Nat.eqb (length rm) 0) eqn:Hc.
  - left. apply andb_true_iff in Hc as [Hm Hr].
    apply Nat.eqb_eq, length_zero_iff_nil in Hm, Hr. done.
  - right. split.
    + intros [Hm Hr]. rewrite Hm, Hr in Hc. done.
    + destruct (Nat.eqb (length missing) (length records));
        [|destruct (slicesInsert _ _ _) as [lines3|]]; try done.
      * by destruct (WriteConf (lines1 ++ missing) fs).
      * by destruct (WriteConf lines3 fs).
Qed.


(** When no desired line is missing and no owned line is stale, the call
    returns at once and writes nothing. *)
Lemma UpdateIps_nochange (fs : S) dnsRecord records lines :
  ReadConf fs = inl lines ->
  (forall k, k ∈ desiredLines ip6String dnsRecord records -> k ∈ lines) ->
  (forall l, l ∈ lines -> owned dnsRecord l ->
             l ∈ desiredLines ip6String dnsRecord records) ->
  UpdateIps ip6String rangeMissing rangeAnchor fs dnsRecord records
  = Return false None None fs.
Proof.
  intros Hread Hall Hown.
  destruct (UpdateIps_cases fs dnsRecord records lines Hread)
    as (w & rm & Hscan & [(_ & _ & Heq)|(Hsome & _)]); [done|].
  exfalso. apply Hsome. split.
  - by apply (missing_nil _ _ _ _ _ _ Hscan _ (rangeMissing_perm _)).
  - by apply (scanned_remove_nil _ _ _ _ _ _ Hscan).
Qed.

(** A call that returns changed = false without error found nothing
    missing and nothing stale. *)
Lemma UpdateIps_unchanged (fs : S) dnsRecord records written fs' :
  UpdateIps ip6String rangeMissing rangeAnchor fs dnsRecord records
    = Return false None written fs' ->
  fs' = fs /\ written = None /\
  exists lines, ReadConf fs = inl lines /\
    (forall k, k ∈ desiredLines ip6String dnsRecord records -> k ∈ lines) /\
    (forall l, l ∈ lines -> owned dnsRecord l ->
               l ∈ desiredLines ip6String dnsRecord records).
Proof.
  intros Hcall.
  destruct (ReadConf fs) as [lines|err] eqn:Hread.
  2: { rewrite (UpdateIps_read_error _ _ _ _ Hread) in Hcall. done. }
  destruct (UpdateIps_cases fs dnsRecord records lines Hread)
    as (w & rm & Hscan & [(Hm & Hrm & Heq)|(_ & Heq)]);
    rewrite Heq in Hcall.
  2: { destruct (if Nat.eqb _ _ then _ else _); done. }
  simplify_eq. split; [done|]. split; [done|].
  exists lines. split; [done|]. split.
  - by apply (missing_nil _ _ _ _ _ _ Hscan _ (rangeMissing_perm _)).
  - by apply (scanned_remove_nil _ _ _ _ _ _ Hscan).
Qed.

(** The lines a writing call hands to [WriteConf]: the lines that survive
    the removal and the missing ones, the latter at the end or at an
    index. *)
Lemma UpdateIps_written (fs : S) dnsRecord records e written fs' :
  UpdateIps ip6String rangeMissing rangeAnchor fs dnsRecord records
    = Return true e written fs' ->
  exists lines w rm lines3,
    ReadConf fs = inl lines /\
    scan dnsRecord (wantedInit ip6String dnsRecord records) lines = (w, rm) /\
    let D := desiredLines ip6String dnsRecord records in
    let missing := collectMissing (rangeMissing (map_to_list w)) in
    let lines1 := filter (fun l => ~ stale dnsRecord D l) lines in
    written = Some lines3 /\ WriteConf lines3 fs = (fs', e) /\
    ((length missing = length records /\ lines3 = lines1 ++ missing) \/
     (length missing <> length records /\
      (anchorIndex (rangeAnchor (map_to_list w)) <= length lines1)%nat /\
      lines3 = take (anchorIndex (rangeAnchor (map_to_list w))) lines1
               ++ missing
               ++ drop (anchorIndex (rangeAnchor (map_to_list w))) lines1)).
Proof.
  intros Hcall.
  destruct (ReadConf fs) as [lines|err] eqn:Hread.
  2: { rewrite (UpdateIps_read_error _ _ _ _ Hread) in Hcall. done. }
  destruct (UpdateIps_cases fs dnsRecord records lines Hread)
    as (w & rm & Hscan & [(_ & _ & Heq)|(_ & Heq)]);
    rewrite Heq in Hcall; [done|].
  exists lines, w, rm.
  destruct (Nat.eqb_spec
              (length (collectMissing (rangeMissing (map_to_list w))))
              (length records)) as [Hlen|Hlen].
  - eexists. split; [done|]. split; [done|]. simplify_eq.
    repeat split; try done; [by destruct (WriteConf _ fs)|by left].
  - destruct (slicesInsert _ _ _) as [lines3|] eqn:Hins; [|done].
    apply slicesInsert_Some in Hins as [Hle ->].
    eexists. split; [done|]. split; [done|]. simplify_eq.
    repeat split; try done; [by destruct (WriteConf _ fs)|by right].
Qed.

(** C2, amended: when the desired records have distinct canonical lines
    and no desired line stands more than once in the lines read, then after
    a call that returns without error the owned lines of the file (the lines
    written, or the lines read if nothing was written) are the canonical
    lines of the desired records, each once, and the lines that are not
    owned are those of before, in their order. *)
Theorem c2_owned_lines_are_desired (fs : S) dnsRecord records lines c written fs' :
  let D := desiredLines ip6String dnsRecord records in
  ReadConf fs = inl lines ->
  NoDup D ->
  NoDup (filter (fun l => l ∈ D) lines) ->
  UpdateIps ip6String rangeMissing rangeAnchor fs dnsRecord records
    = Return c None written fs' ->
  let post := default lines written in
  filter (owned dnsRecord) post ≡ₚ D /\
  length (filter (owned dnsRecord) post) = length records /\
  filter (fun l => ~ owned dnsRecord l) post
  = filter (fun l => ~ owned dnsRecord l) lines.
Proof.
  intros D Hread HndD Hndf Hcall post.
  assert (HD : forall k, k ∈ D -> owned dnsRecord k)
    by (intros k; apply desiredLines_owned).
  cut (filter (owned dnsRecord) post ≡ₚ D /\
       filter (fun l => ~ owned dnsRecord l) post
       = filter (fun l => ~ owned dnsRecord l) lines).
  { intros [Hp Hf]. repeat split; [done| |done].
    rewrite Hp. unfold D, desiredLines. by rewrite length_fmap. }
  destruct c.
  - (* the call wrote *)
    apply UpdateIps_written in Hcall
      as (lines' & w & rm & lines3 & Hread' & Hscan & -> & _ & Hlines3).
    assert (lines' = lines) as -> by congruence.
    fold D in Hlines3. unfold post. simpl.
    set (missing := collectMissing (rangeMissing (map_to_list w))) in *.
    set (lines1 := filter (fun l => ~ stale dnsRecord D l) lines) in *.
    assert (Hmiss : forall k, k ∈ missing <-> k ∈ D /\ k ∉ lines)
      by (intros k; apply (missing_elem _ _ _ _ _ _ Hscan _ (rangeMissing_perm _))).
    assert (Hmnd : NoDup missing)
      by apply (missing_NoDup _ _ (rangeMissing_perm _)).
    assert (Hperm : lines3 ≡ₚ lines1 ++ missing).
    { destruct Hlines3 as [[_ ->]|(_ & _ & ->)]; [done|apply inserted_perm]. }
    assert (Hrest : filter (fun l => ~ owned dnsRecord l) lines3
                    = filter (fun l => ~ owned dnsRecord l) lines1).
    { destruct Hlines3 as [[_ ->]|(_ & _ & ->)].
      - rewrite filter_app, (filter_none _ missing), app_nil_r; [done|].
        intros x Hx Hn. apply Hn, HD. by apply Hmiss.
      - apply (filter_inserted (owned dnsRecord)).
        intros x Hx. apply HD. by apply Hmiss. }
    split.
    + rewrite Hperm, filter_app.
      rewrite (filter_all _ missing) by (intros x Hx; apply HD; by apply Hmiss).
      unfold lines1. rewrite list_filter_filter.
      rewrite (list_filter_iff _ (fun l => l ∈ D))
        by (intros l; by apply not_stale_iff).
      apply NoDup_Permutation; [|done|].
      * apply NoDup_app. split; [done|]. split; [|done].
        intros x Hx Hm. apply list_elem_of_filter in Hx as [_ Hx].
        apply Hmiss in Hm as [_ Hn]. done.
      * intros k. rewrite elem_of_app, list_elem_of_filter, Hmiss.
        destruct (decide (k ∈ lines)); tauto.
    + rewrite Hrest. unfold lines1. rewrite list_filter_filter.
      apply list_filter_iff. intros l. unfold stale. tauto.
  - (* the call returned before the write *)
    apply UpdateIps_unchanged in Hcall
      as (-> & -> & lines' & Hread' & Hall & Hst).
    assert (lines' = lines) as -> by congruence.
    unfold post. simpl. split; [|done].
    rewrite (filter_ext_elem _ (fun l => l ∈ D)).
    + apply NoDup_Permutation; [done|done|].
      intros k. rewrite list_elem_of_filter. split; [tauto|]. auto.
    + intros l Hl. split; [by apply Hst|by apply HD].
Qed.

(** C4, amended: in a call that writes, with distinct desired lines: if no
    desired line stands in the file, the missing lines, which are then all
    the desired ones, are put at the end, after the lines that survive the
    removal; if some desired line stands in the file and no owned line is
    stale, the missing lines are put in just before one of the desired lines
    of the file, at its index. *)
Theorem c4_insertion_position (fs : S) dnsRecord records lines e written fs' :
  let D := desiredLines ip6String dnsRecord records in
  ReadConf fs = inl lines ->
  NoDup D ->
  UpdateIps ip6String rangeMissing rangeAnchor fs dnsRecord records
    = Return true e written fs' ->
  ((forall k, k ∈ D -> k ∉ lines) ->
     exists missing, missing ≡ₚ D /\
       written = Some (filter (fun l => ~ stale dnsRecord D l) lines ++ missing)) /\
  ((exists k, k ∈ D /\ k ∈ lines) ->
   (forall l, l ∈ lines -> owned dnsRecord l -> l ∈ D) ->
     exists i k missing,
       lines !! i = Some k /\ k ∈ D /\
       missing ≡ₚ filter (fun k => k ∉ lines) D /\
       written = Some (take i lines ++ missing ++ drop i lines)).
Proof.
  intros D Hread HndD Hcall.
  apply UpdateIps_written in Hcall
    as (lines' & w & rm & lines3 & Hread' & Hscan & -> & _ & Hlines3).
  assert (lines' = lines) as -> by congruence.
  fold D in Hlines3.
  set (missing := collectMissing (rangeMissing (map_to_list w))) in *.
  pose proof (missing_perm _ _ _ _ _ _ Hscan _ (rangeMissing_perm _) HndD) as Hmp.
  fold D in Hmp. fold missing in Hmp.
  assert (HlenD : length D = length records)
    by (unfold D, desiredLines; by rewrite length_fmap).
  split.
  - (* nothing present: the append *)
    intros Hnone. rewrite (filter_all _ D) in Hmp by done.
    exists missing. split; [done|].
    destruct Hlines3 as [[_ ->]|(Hne & _)]; [done|].
    exfalso. apply Hne. by rewrite Hmp.
  - (* something present, nothing stale: the insertion at an index *)
    intros (k0 & Hk0 & Hin0) Hnostale.
    assert (Hlt : (length missing < length records)%nat).
    { rewrite Hmp, <- HlenD. eapply (length_filter_lt _ _ k0); [done|].
      intros Hn. by apply Hn. }
    destruct Hlines3 as [[Heq _]|(_ & Hle & ->)]; [lia|].
    rewrite (filter_all (fun l => ~ stale dnsRecord D l) lines) in *
      by (intros l Hl [Ho Hn]; by apply Hn, Hnostale).
    destruct (anchor_index _ _ _ _ _ _ Hscan _ (rangeAnchor_perm _))
      as [[Hnone _]|(k & Hk & HkD)].
    + exfalso. by apply (Hnone k0).
    + exists (anchorIndex (rangeAnchor (map_to_list w))), k, missing. done.
Qed.

End Calls.

Section Idempotence.

Context {S : Type} `{!UnboundConfWrapper S}.

Variable ip6String : Net.IP -> string.
Variables rangeMissing rangeAnchor rangeMissing2 rangeAnchor2 :
  list (string * option nat) -> list (string * option nat).

(** The walks of the first and of the second call may differ; each meets
    every entry once. *)
Hypothesis rangeMissing_perm : forall l, rangeMissing l ≡ₚ l.
Hypothesis rangeMissing2_perm : forall l, rangeMissing2 l ≡ₚ l.

(** C9, amended: after a call that returned without error, if a read of
    the file gives back the lines the call wrote, a second call with the
    same desired records returns changed = false without error, calls
    [WriteConf] not at all and leaves the file as it is. *)
Theorem c9_second_call_changes_nothing (fs : S) dnsRecord records c written fs' :
  UpdateIps ip6String rangeMissing rangeAnchor fs dnsRecord records
    = Return c None written fs' ->
  (forall lines3, written = Some lines3 -> ReadConf fs' = inl lines3) ->
  UpdateIps ip6String rangeMissing2 rangeAnchor2 fs' dnsRecord records
    = Return false None None fs'.
Proof.
  intros Hcall Hback.
  set (D := desiredLines ip6String dnsRecord records).
  assert (HD : forall k, k ∈ D -> owned dnsRecord k)
    by (intros k; apply desiredLines_owned).
  destruct c.
  - apply UpdateIps_written in Hcall
      as (lines & w & rm & lines3 & Hread & Hscan & -> & _ & Hlines3).
    fold D in Hlines3.
    set (missing := collectMissing (rangeMissing (map_to_list w))) in *.
    set (lines1 := filter (fun l => ~ stale dnsRecord D l) lines) in *.
    assert (Hmiss : forall k, k ∈ missing <-> k ∈ D /\ k ∉ lines)
      by (intros k; apply (missing_elem _ _ _ _ _ _ Hscan _ (rangeMissing_perm _))).
    assert (Hperm : lines3 ≡ₚ lines1 ++ missing).
    { destruct Hlines3 as [[_ ->]|(_ & _ & ->)]; [done|apply inserted_perm]. }
    apply (UpdateIps_nochange ip6String rangeMissing2 rangeAnchor2
             rangeMissing2_perm fs' dnsRecord records lines3).
    + by apply Hback.
    + intros k Hk. rewrite Hperm, elem_of_app.
      destruct (decide (k ∈ lines)) as [Hin|Hnin].
      * left. apply list_elem_of_filter. split; [|done]. by intros [_ ?].
      * right. by apply Hmiss.
    + intros l Hl Ho. rewrite Hperm, elem_of_app in Hl.
      destruct Hl as [Hl|Hl].
      * apply list_elem_of_filter in Hl as [Hn _].
        destruct (decide (l ∈ D)); [done|]. exfalso. by apply Hn.
      * by apply Hmiss in Hl as [? _].
  - apply (UpdateIps_unchanged ip6String rangeMissing rangeAnchor
             rangeMissing_perm) in Hcall
      as (-> & -> & lines & Hread & Hall & Hst).
    by apply (UpdateIps_nochange ip6String rangeMissing2 rangeAnchor2
                rangeMissing2_perm fs dnsRecord records lines).
Qed.

End Idempotence.

(** *** When FsImpl reads back what it wrote *)











(** *** Concrete files *)

Lemma walkRev_perm l : walkRev l ≡ₚ l.
Proof. unfold walkRev. symmetry. apply Permutation_rev. Qed.


(** C2 as stated fails: the call returns without error, writes nothing and
    leaves both copies of the line, two owned lines for one desired
    record. *)
Lemma c2_duplicate_line_stays :
  ReadConf fsDuplicate = inl [line "h 30 A 10.0.0.1"; line "h 30 A 10.0.0.1"] /\
  UpdateIps noIp6 walkId walkId fsDuplicate "h" [rec4 10 0 0 1 30]
    = Return false None None fsDuplicate /\
  ~ (filter (owned "h") [line "h 30 A 10.0.0.1"; line "h 30 A 10.0.0.1"]
     ≡ₚ desiredLines noIp6 "h" [rec4 10 0 0 1 30]).
Proof.
  split; [by vm_compute|]. split; [by vm_compute|].
  intros Hp. apply Permutation_length in Hp. vm_compute in Hp. done.
Qed.

Lemma c2_owned_lines_are_desired_witness :
  (forall l, walkId l ≡ₚ l) /\
  ReadConf fsDrift = inl [line "h 60 A 10.0.0.1"; "server:"%string] /\
  NoDup (desiredLines noIp6 "h" [rec4 10 0 0 1 30]) /\
  NoDup (filter (fun l => l ∈ desiredLines noIp6 "h" [rec4 10 0 0 1 30])
                [line "h 60 A 10.0.0.1"; "server:"%string]) /\
  UpdateIps noIp6 walkId walkId fsDrift "h" [rec4 10 0 0 1 30]
    = Return true None (Some ["server:"%string; line "h 30 A 10.0.0.1"])
        fsDriftFixed /\
  filter (owned "h") ["server:"%string; line "h 30 A 10.0.0.1"]
    ≡ₚ desiredLines noIp6 "h" [rec4 10 0 0 1 30].
Proof.
  assert (Hread : ReadConf fsDrift = inl [line "h 60 A 10.0.0.1"; "server:"%string])
    by (by vm_compute).
  assert (Hnd : NoDup (desiredLines noIp6 "h" [rec4 10 0 0 1 30]))
    by (apply NoDup_singleton).
  assert (Hnf : NoDup (filter (fun l => l ∈ desiredLines noIp6 "h" [rec4 10 0 0 1 30])
                              [line "h 60 A 10.0.0.1"; "server:"%string]))
    by (vm_compute; constructor).
  assert (Hcall : UpdateIps noIp6 walkId walkId fsDrift "h" [rec4 10 0 0 1 30]
                  = Return true None (Some ["server:"%string; line "h 30 A 10.0.0.1"])
                      fsDriftFixed) by (by vm_compute).
  split; [reflexivity|]. split; [exact Hread|]. split; [exact Hnd|].
  split; [exact Hnf|]. split; [exact Hcall|].
  apply (c2_owned_lines_are_desired noIp6 walkId walkId
           (fun l => reflexivity l) fsDrift "h" [rec4 10 0 0 1 30] _ true _
           fsDriftFixed Hread Hnd Hnf Hcall).
Defined.

(** C9 as stated fails on the file of [FsImpl]: the first call removes the
    stale line, which leaves the line behind the blanks as the first of the
    file; the read of the second call trims the blanks, finds that line
    owned and stale, and the second call writes again and returns
    changed = true. *)
Lemma c9_second_call_writes_after_trim :
  UpdateIps noIp6 walkId walkId fsIndented "h" [rec4 10 0 0 1 30]
    = Return true None
        (Some [("  " ++ line "h 99 A 10.0.0.9")%string; line "h 30 A 10.0.0.1"])
        fsIndented1 /\
  ReadConf fsIndented1 = inl [line "h 99 A 10.0.0.9"; line "h 30 A 10.0.0.1"] /\
  UpdateIps noIp6 walkId walkId fsIndented1 "h" [rec4 10 0 0 1 30]
    = Return true None (Some [line "h 30 A 10.0.0.1"])
        (fileOf [line "h 30 A 10.0.0.1"]).
Proof. by vm_compute. Qed.

Lemma c9_second_call_changes_nothing_witness :
  (forall l, walkId l ≡ₚ l) /\ (forall l, walkRev l ≡ₚ l) /\
  UpdateIps noIp6 walkId walkId fsDrift "h" [rec4 10 0 0 1 30]
    = Return true None (Some ["server:"%string; line "h 30 A 10.0.0.1"])
        fsDriftFixed /\
  (forall lines3, Some ["server:"%string; line "h 30 A 10.0.0.1"] = Some lines3 ->
                  ReadConf fsDriftFixed = inl lines3) /\
  UpdateIps noIp6 walkRev walkRev fsDriftFixed "h" [rec4 10 0 0 1 30]
    = Return false None None fsDriftFixed.
Proof.
  assert (Hcall : UpdateIps noIp6 walkId walkId fsDrift "h" [rec4 10 0 0 1 30]
                  = Return true None (Some ["server:"%string; line "h 30 A 10.0.0.1"])
                      fsDriftFixed) by (by vm_compute).
  assert (Hback : forall lines3,
            Some ["server:"%string; line "h 30 A 10.0.0.1"] = Some lines3 ->
            ReadConf fsDriftFixed = inl lines3).
  { intros lines3 [= <-]. by vm_compute. }
  split; [reflexivity|]. split; [exact walkRev_perm|]. split; [exact Hcall|].
  split; [exact Hback|].
  apply (c9_second_call_changes_nothing noIp6 walkId walkId walkRev walkRev
           (fun l => reflexivity l) walkRev_perm fsDrift "h"
           [rec4 10 0 0 1 30] true _ fsDriftFixed Hcall Hback).
Defined.

(** C4 as stated fails.  With two desired lines in the file, the place of
    the third depends on the walk over the map: one walk puts it before the
    last of them, the reverse walk before the first.  With a stale line in
    front, the missing line lands behind the desired line of the file, not
    before it.  With one record given twice and no desired line in the file,
    the line is put at the front, not at the end. *)
Lemma c4_position_varies :
  written_of (UpdateIps noIp6 walkId walkId fsTwo "h" threeRecords)
    = Some [line "h 30 A 10.0.0.1"; "server:"%string;
            line "h 30 A 10.0.0.3"; line "h 30 A 10.0.0.2"] /\
  written_of (UpdateIps noIp6 walkId walkRev fsTwo "h" threeRecords)
    = Some [line "h 30 A 10.0.0.3"; line "h 30 A 10.0.0.1";
            "server:"%string; line "h 30 A 10.0.0.2"] /\
  written_of (UpdateIps noIp6 walkId walkId
                (fileOf [line "h 60 A 10.0.0.9"; line "h 30 A 10.0.0.1";
                         "server:"%string])
                "h" [rec4 10 0 0 1 30; rec4 10 0 0 2 30])
    = Some [line "h 30 A 10.0.0.1"; line "h 30 A 10.0.0.2"; "server:"%string] /\
  written_of (UpdateIps noIp6 walkId walkId (fileOf ["server:"%string])
                "h" [rec4 10 0 0 1 30; rec4 10 0 0 1 30])
    = Some [line "h 30 A 10.0.0.1"; "server:"%string].
Proof. by vm_compute. Qed.

(** Two stale lines in front of the desired line of the file: the index
    kept for the insertion lies beyond the lines that are left, and
    [slices.Insert] panics. *)
Lemma UpdateIps_can_panic :
  UpdateIps noIp6 walkId walkId
    (fileOf [line "h 60 A 10.0.0.8"; line "h 60 A 10.0.0.9"; line "h 30 A 10.0.0.1"])
    "h" [rec4 10 0 0 1 30] = Panic.
Proof. by vm_compute. Qed.

Lemma c4_insertion_position_witness :
  (forall l, walkId l ≡ₚ l) /\
  ReadConf fsOne = inl ["server:"%string; line "h 30 A 10.0.0.1"] /\
  NoDup (desiredLines noIp6 "h" twoRecords) /\
  UpdateIps noIp6 walkId walkId fsOne "h" twoRecords
    = Return true None
        (Some ["server:"%string; line "h 30 A 10.0.0.2"; line "h 30 A 10.0.0.1"])
        fsOneFixed /\
  ((exists k, k ∈ desiredLines noIp6 "h" twoRecords /\
              k ∈ ["server:"%string; line "h 30 A 10.0.0.1"]) ->
   (forall l, l ∈ ["server:"%string; line "h 30 A 10.0.0.1"] -> owned "h" l ->
              l ∈ desiredLines noIp6 "h" twoRecords) ->
   exists i k missing,
     ["server:"%string; line "h 30 A 10.0.0.1"] !! i = Some k /\
     k ∈ desiredLines noIp6 "h" twoRecords /\
     missing ≡ₚ filter (fun k => k ∉ ["server:"%string; line "h 30 A 10.0.0.1"])
                       (desiredLines noIp6 "h" twoRecords) /\
     Some ["server:"%string; line "h 30 A 10.0.0.2"; line "h 30 A 10.0.0.1"]
     = Some (take i ["server:"%string; line "h 30 A 10.0.0.1"] ++ missing
             ++ drop i ["server:"%string; line "h 30 A 10.0.0.1"])).
Proof.
  assert (Hread : ReadConf fsOne = inl ["server:"%string; line "h 30 A 10.0.0.1"])
    by (by vm_compute).
  assert (Hnd : NoDup (desiredLines noIp6 "h" twoRecords)).
  { apply (bool_decide_unpack _). by vm_compute. }
  assert (Hcall : UpdateIps noIp6 walkId walkId fsOne "h" twoRecords
                  = Return true None
                      (Some ["server:"%string; line "h 30 A 10.0.0.2";
                             line "h 30 A 10.0.0.1"]) fsOneFixed)
    by (by vm_compute).
  split; [reflexivity|]. split; [exact Hread|]. split; [exact Hnd|].
  split; [exact Hcall|].
  apply (c4_insertion_position noIp6 walkId walkId
           (fun l => reflexivity l) (fun l => reflexivity l)
           fsOne "h" twoRecords _ None _ fsOneFixed Hread Hnd Hcall).
Defined.

(** *** The cases of TestUnbound_UpdateIps, on the double of the tests *)

Example test_record_exists_no_update_needed :
  runTest [line "test-01.my.tld 30 A 192.168.1.5";
           line "test-01.other.tld 30 A 192.168.1.5"]
          [mustNewDnsRecord "192.168.1.5" "A" 200 30]
  = Some (false, None, []).
Proof. by vm_compute. Qed.

Example test_A_and_AAAA_exist_no_update_needed :
  runTest [line "test-01.my.tld 30 A 192.168.1.1";
           line "test-01.my.tld 30 AAAA ::1"]
          [mustNewDnsRecord "192.168.1.1" "A" 0 30;
           mustNewDnsRecord "::1" "AAAA" 0 30]
  = Some (false, None, []).
Proof. by vm_compute. Qed.

Example test_record_exists_but_ttl_differs :
  runTest [line "test-01.my.tld 60 A 192.168.1.5";
           line "test-01.other.tld 30 A 192.168.1.5"]
          [mustNewDnsRecord "192.168.1.5" "A" 200 30]
  = Some (true, None, [line "test-01.other.tld 30 A 192.168.1.5";
                       line "test-01.my.tld 30 A 192.168.1.5"]).
Proof. by vm_compute. Qed.

Example test_record_exists_but_IP_differs :
  runTest [line "test-01.my.tld 60 A 192.168.1.25";
           line "test-01.other.tld 30 A 192.168.1.5"]
          [mustNewDnsRecord "192.168.1.5" "A" 200 30]
  = Some (true, None, [line "test-01.other.tld 30 A 192.168.1.5";
                       line "test-01.my.tld 30 A 192.168.1.5"]).
Proof. by vm_compute. Qed.

End UnboundProps.

(** ** Further properties of the state machine *)

Module StatusInvariants.

Import Status Domain Manager Terms.

Lemma step_keeps_thresholds s i : thresholds (step s i) = thresholds s.
Proof.
  destruct s as [c last h u|c h u|c h u], i; simpl; repeat case_match; done.
Qed.

(** The thresholds a state was built with stay with the record through
    every series of probes, also across the changes of state. *)
Theorem thresholds_kept s inputs : thresholds (run s inputs) = thresholds s.
Proof.
  revert s. induction inputs as [|i inputs IH]; intros s; [done|].
  simpl. fold (run (step s i) inputs). by rewrite IH, step_keeps_thresholds.
Qed.

Lemma step_not_initial s i :
  Name s <> InitialStateName -> Name (step s i) <> InitialStateName.
Proof.
  destruct s as [c last h u|c h u|c h u]; [done| |]; intros _;
    destruct i; simpl; repeat case_match; done.
Qed.

(** A record that has left [initial] never is [initial] again. *)
Theorem never_back_to_initial s inputs :
  Name s <> InitialStateName -> Name (run s inputs) <> InitialStateName.
Proof.
  revert s. induction inputs as [|i inputs IH]; intros s Hs; [done|].
  simpl. fold (run (step s i) inputs). by apply IH, step_not_initial.
Qed.

Lemma never_back_to_initial_witness :
  Name (newUnhealthy 5 5) <> InitialStateName /\
  Name (run (newUnhealthy 5 5) [H; H; E; U; H]) <> InitialStateName.
Proof.
  split; [done|]. by apply (never_back_to_initial (newUnhealthy 5 5)).
Defined.

Lemma step_reachableShape opts s i :
  validPolicy opts -> reachableShape opts s -> reachableShape opts (step s i).
Proof.
  intros (Hh & Hu & Hi).
  destruct s as [c last h u|c h u|c h u]; simpl.
  - intros (-> & -> & -> & Hc). destruct i; simpl; [| |done].
    + rewrite StatusProps.dec_pos by (unfold int_range; lia).
      destruct (Z.leb_spec (c - 1) 0); simpl; repeat split; lia.
    + rewrite StatusProps.dec_pos by (unfold int_range; lia).
      destruct (Z.leb_spec (c - 1) 0); simpl; repeat split; lia.
  - intros (-> & -> & Hc). destruct i; simpl.
    + repeat split; lia.
    + rewrite StatusProps.dec_pos by (unfold int_range; lia).
      destruct (Z.leb_spec (c - 1) 0); simpl; repeat split; lia.
    + rewrite StatusProps.dec_pos by (unfold int_range; lia).
      destruct (Z.leb_spec (c - 1) 0); simpl; repeat split; lia.
  - intros (-> & -> & Hc). destruct i; simpl.
    + rewrite StatusProps.dec_pos by (unfold int_range; lia).
      destruct (Z.leb_spec (c - 1) 0); simpl; repeat split; lia.
    + repeat split; lia.
    + repeat split; lia.
Qed.

Lemma run_reachableShape opts inputs s :
  validPolicy opts -> reachableShape opts s -> reachableShape opts (run s inputs).
Proof.
  intros Hv. revert s. induction inputs as [|i inputs IH]; intros s Hs; [done|].
  simpl. fold (run (step s i) inputs). by apply IH, step_reachableShape.
Qed.

Lemma new_reachableShape opts : validPolicy opts -> reachableShape opts (NewUnknownState opts).
Proof. intros (Hh & Hu & Hi). simpl. repeat split; lia. Qed.

(** With a valid policy, the counter of the state a record holds is at
    least 1 after every series of probes, and never above the largest of the
    three streaks the record was built from: the decrement never wraps. *)
Theorem streak_stays_positive opts inputs :
  validPolicy opts ->
  1 <= Streak (run (NewUnknownState opts) inputs)
    <= Z.max (Z.max (HealthyStreak opts) (UnhealthyStreak opts))
             (InitialHealthyStreak opts).
Proof.
  intros Hv.
  pose proof (run_reachableShape opts inputs _ Hv (new_reachableShape opts Hv)) as Hr.
  destruct (run (NewUnknownState opts) inputs) as [c last h u|c h u|c h u];
    simpl in *; destruct Hr as (-> & -> & Hr); lia.
Qed.

Lemma streak_stays_positive_witness :
  validPolicy defaultStatusConfig /\
  1 <= Streak (run (NewUnknownState defaultStatusConfig) [H; U; E; H; U; U; H])
    <= 5.
Proof.
  assert (Hv : validPolicy defaultStatusConfig).
  { unfold validPolicy. simpl. lia. }
  split; [exact Hv|].
  apply (streak_stays_positive defaultStatusConfig [H; U; E; H; U; U; H] Hv).
Defined.

Lemma nonErrors_snoc inputs i :
  nonErrors (inputs ++ [i]) = (nonErrors inputs + if isError i then 0 else 1)%nat.
Proof.
  unfold nonErrors. rewrite List.filter_app, length_app. simpl.
  by destruct (isError i).
Qed.

(** While fewer probes than the initial healthy streak have ended without
    error, the record is [initial] and its counter has gone down by their
    number, whatever their kinds and whatever errors came between. *)
Lemma initial_counts_nonErrors opts inputs :
  validPolicy opts ->
  Z.of_nat (nonErrors inputs) < InitialHealthyStreak opts ->
  run (NewUnknownState opts) inputs
  = Initial (InitialHealthyStreak opts - Z.of_nat (nonErrors inputs)) ""
            (HealthyStreak opts) (UnhealthyStreak opts).
Proof.
  intros (Hh & Hu & Hi).
  induction inputs as [|i inputs IH] using rev_ind; intros Hn.
  - unfold NewUnknownState. simpl. f_equal. unfold nonErrors. simpl. lia.
  - rewrite nonErrors_snoc in Hn. rewrite StatusProps.run_app, IH by lia.
    rewrite nonErrors_snoc.
    destruct i; simpl in *.
    + rewrite StatusProps.dec_pos by (unfold int_range; lia).
      destruct (Z.leb_spec (InitialHealthyStreak opts - Z.of_nat (nonErrors inputs) - 1) 0);
        [lia|]. f_equal. lia.
    + rewrite StatusProps.dec_pos by (unfold int_range; lia).
      destruct (Z.leb_spec (InitialHealthyStreak opts - Z.of_nat (nonErrors inputs) - 1) 0);
        [lia|]. f_equal. lia.
    + f_equal. lia.
Qed.

(** A record leaves [initial] with the probe that brings the number of
    probes without error to the initial healthy streak, and the kind of that
    one probe alone decides whether it becomes [healthy] or [unhealthy]; the
    probes before it, healthy or not, only count. *)
Theorem initial_left_by_last_probe opts inputs i :
  validPolicy opts ->
  isError i = false ->
  Z.of_nat (nonErrors inputs) = InitialHealthyStreak opts - 1 ->
  run (NewUnknownState opts) (inputs ++ [i])
  = if isHealthyInput i
    then newHealthy (HealthyStreak opts) (UnhealthyStreak opts)
    else newUnhealthy (HealthyStreak opts) (UnhealthyStreak opts).
Proof.
  intros Hv Hi Hn. pose proof Hv as (Hh & Hu & Hih).
  rewrite StatusProps.run_app, initial_counts_nonErrors by (done || lia).
  rewrite Hn.
  replace (InitialHealthyStreak opts - (InitialHealthyStreak opts - 1)) with 1 by lia.
  destruct i; simpl in *; try done.
Qed.

Lemma initial_left_by_last_probe_witness :
  validPolicy defaultStatusConfig /\
  isError H = false /\
  Z.of_nat (nonErrors [E; U; E]) = InitialHealthyStreak defaultStatusConfig - 1 /\
  run (NewUnknownState defaultStatusConfig) ([E; U; E] ++ [H]) = newHealthy 5 5.
Proof.
  assert (Hv : validPolicy defaultStatusConfig).
  { unfold validPolicy. simpl. lia. }
  split; [exact Hv|]. split; [reflexivity|]. split; [reflexivity|].
  apply (initial_left_by_last_probe defaultStatusConfig [E; U; E] H Hv eq_refl eq_refl).
Defined.

Lemma fresh_healthy_countdown h u inputs c :
  Forall (fun i => isHealthyInput i = false) inputs ->
  Z.of_nat (length inputs) < c -> int_range c ->
  run (Healthy c h u) inputs = Healthy (c - Z.of_nat (length inputs)) h u.
Proof.
  intros Hall. induction inputs as [|i inputs IH] using rev_ind; intros Hlen Hr.
  - simpl. f_equal. lia.
  - apply Forall_app in Hall as [Hall Hi]. rewrite Forall_singleton in Hi.
    rewrite length_app in *. simpl in *.
    rewrite StatusProps.run_app, IH by (done || lia).
    destruct i; simpl in *; [done| |];
      rewrite StatusProps.dec_pos by (unfold int_range in *; lia);
      (destruct (Z.leb_spec (c - Z.of_nat (length inputs) - 1) 0); [lia|]);
      f_equal; lia.
Qed.

(** A record that has just become [healthy] stays so through fewer failed
    probes (unhealthy or in error, in any mix) than the healthy streak, and
    becomes [unhealthy] with the failed probe that reaches it: on entering
    [healthy] it is the healthy streak that is counted down. *)
Theorem fresh_healthy_tolerates_healthy_streak h u inputs i :
  1 <= h < 2 ^ 63 ->
  Forall (fun i => isHealthyInput i = false) (inputs ++ [i]) ->
  Z.of_nat (length inputs) = h - 1 ->
  Name (run (newHealthy h u) inputs) = HealthyStateName /\
  run (newHealthy h u) (inputs ++ [i]) = newUnhealthy h u.
Proof.
  intros Hh Hall Hlen.
  apply Forall_app in Hall as [Hall Hi]. rewrite Forall_singleton in Hi.
  unfold newHealthy.
  rewrite StatusProps.run_app.
  rewrite fresh_healthy_countdown by (done || lia || (unfold int_range; lia)).
  split; [done|]. rewrite Hlen.
  replace (h - (h - 1)) with 1 by lia.
  by destruct i.
Qed.

Lemma fresh_healthy_tolerates_healthy_streak_witness :
  1 <= 3 < 2 ^ 63 /\
  Forall (fun i => isHealthyInput i = false) ([U; E] ++ [E]) /\
  Z.of_nat (length [U; E]) = 3 - 1 /\
  Name (run (newHealthy 3 7) [U; E]) = HealthyStateName /\
  run (newHealthy 3 7) ([U; E] ++ [E]) = newUnhealthy 3 7.
Proof.
  assert (Hall : Forall (fun i => isHealthyInput i = false) ([U; E] ++ [E])).
  { simpl. by repeat constructor. }
  split; [lia|]. split; [exact Hall|]. split; [reflexivity|].
  apply (fresh_healthy_tolerates_healthy_streak 3 7 [U; E] E); [lia|exact Hall|reflexivity].
Defined.

Lemma Eval_failed_dial_initial d r :
  dialFailed d -> Name (status r) = InitialStateName ->
  Eval (Tcp.IsHealthy d) r = r.
Proof.
  intros (e & He & Hne) Hinit. destruct d as [c err]. simpl in He. subst err.
  unfold Eval, Tcp.IsHealthy.
  destruct c; rewrite Hne; simpl;
    destruct r as [rec host st]; simpl in *;
    by destruct st.
Qed.

(** With the TCP checker, a record whose every dial fails with an error
    other than connection refused (a timeout, an unreachable network) is
    never moved: from [initial] it does not become [unhealthy], however many
    rounds pass. *)
Theorem failing_dials_keep_initial ds r :
  Forall dialFailed ds -> Name (status r) = InitialStateName ->
  evalDials ds r = r.
Proof.
  intros Hall Hinit. unfold evalDials.
  induction ds as [|d ds IH]; [done|].
  apply Forall_cons in Hall as [Hd Hall]. simpl.
  rewrite Eval_failed_dial_initial by done. by apply IH.
Qed.

Lemma failing_dials_keep_initial_witness :
  let r := NewManagedDnsRecord "h" (mkDnsRecord 200 "A" [10; 0; 0; 1] 30)
             defaultStatusConfig in
  Forall dialFailed [(None, Some Tcp.dialTimeout); (None, Some (Wrap "dial" ETIMEDOUT))] /\
  Name (status r) = InitialStateName /\
  evalDials [(None, Some Tcp.dialTimeout); (None, Some (Wrap "dial" ETIMEDOUT))] r = r.
Proof.
  intros r.
  assert (Hall : Forall dialFailed
            [(None, Some Tcp.dialTimeout); (None, Some (Wrap "dial" ETIMEDOUT))]).
  { repeat constructor; eexists; split; reflexivity. }
  split; [exact Hall|]. split; [reflexivity|].
  apply (failing_dials_keep_initial _ r Hall eq_refl).
Defined.

(** The policy healthy streak 3, unhealthy streak 2: a failed probe in
    [unhealthy] sets the counter to 2, and two healthy probes lead to
    [healthy]. *)
Lemma unhealthy_reset_needs_unhealthy_streak_witness :
  step (Unhealthy 1 3 2) U = Unhealthy 2 3 2 /\
  run (Unhealthy 2 3 2) (repeat H 2) = newHealthy 3 2.
Proof.
  assert (Hu : 1 <= 2) by lia.
  assert (Hr : int_range 2) by (unfold int_range; lia).
  destruct (StatusProps.unhealthy_reset_needs_unhealthy_streak 1 3 2 U 2
              (or_introl eq_refl) Hu Hr) as (Hstep & _ & Hrun).
  split; [exact Hstep|]. apply Hrun. reflexivity.
Defined.

(** The same policy: a healthy probe in [healthy] sets the counter to 2,
    and two failed probes lead to [unhealthy]. *)
Lemma healthy_reset_needs_unhealthy_streak_witness :
  step (Healthy 1 3 2) H = Healthy 2 3 2 /\
  run (Healthy 2 3 2) (repeat U 2) = newUnhealthy 3 2.
Proof.
  assert (Hu : 1 <= 2) by lia.
  assert (Hr : int_range 2) by (unfold int_range; lia).
  destruct (StatusProps.healthy_reset_needs_unhealthy_streak 1 3 2 2 Hu Hr)
    as (Hstep & _ & Hrun).
  split; [exact Hstep|]. apply Hrun. reflexivity.
Defined.

End StatusInvariants.


(** ** The construction of a record *)

Module RecordFacts.
Import Domain Unbound.

(** The address 10.0.0.1 with type CNAME, priority 300 and ttl 70000: the
    record is built, with priority 44 and ttl 4464. *)
Lemma NewDnsRecord_ipv4_any_type_witness :
  NewDnsRecord testParseIPv6
    (mkRecordConfig "10.0.0.1" "CNAME" 300 70000 Status.defaultStatusConfig)
  = inl {| Priority := 44; DnsType := "CNAME";
           Ip := Net.v4InV6Prefix ++ [10; 0; 0; 1]; Ttl := 4464 |}.
Proof.
  apply (DomainProps.NewDnsRecord_ipv4_any_type testParseIPv6
           (mkRecordConfig "10.0.0.1" "CNAME" 300 70000 Status.defaultStatusConfig)
           [10; 0; 0; 1]); reflexivity.
Defined.

End RecordFacts.


(** ** Further properties of the selection *)

Module SelectionFacts.

Import Domain Unbound Manager Terms.

Lemma omap_ext_elem {A B} (f g : A -> option B) (l : list A) :
  (forall x, x ∈ l -> f x = g x) -> omap f l = omap g l.
Proof.
  induction l as [|x l IH]; intros Hfg; [done|].
  change (omap f (x :: l)) with (match f x with Some y => y :: omap f l | None => omap f l end).
  change (omap g (x :: l)) with (match g x with Some y => y :: omap g l | None => omap g l end).
  rewrite (Hfg x) by left. rewrite IH; [done|].
  intros y Hy. apply Hfg. by right.
Qed.

(** The records of distinct keys, each of the type of its key, are
    distinct. *)
Lemma omap_typed_NoDup (f : string * list ManagedDnsRecord -> option ManagedDnsRecord)
    (L : list (string * list ManagedDnsRecord)) :
  NoDup L.*1 ->
  (forall kv r, kv ∈ L -> f kv = Some r -> DnsType (record r) = kv.1) ->
  NoDup (omap f L).
Proof.
  induction L as [|kv L IH]; intros Hnd Hty; [constructor|].
  rewrite fmap_cons in Hnd. apply NoDup_cons in Hnd as [Hnin Hnd].
  change (omap f (kv :: L)) with (match f kv with Some y => y :: omap f L | None => omap f L end).
  assert (HL : NoDup (omap f L)).
  { apply IH; [done|]. intros kv' r Hin. apply Hty. by right. }
  destruct (f kv) as [r|] eqn:Hr; [|done].
  apply NoDup_cons. split; [|done].
  intros Hin. apply list_elem_of_omap in Hin as (kv' & Hkv' & Hr').
  apply Hnin. apply list_elem_of_fmap. exists kv'. split; [|done].
  rewrite <- (Hty kv r) by (left || done).
  rewrite <- (Hty kv' r); [done|by right|done].
Qed.

Section TwoRuns.

(** Two runs of the selection, each with a sort and a walk of its own. *)
Variables SortFunc1 SortFunc2 :
  (ManagedDnsRecord -> ManagedDnsRecord -> Z) ->
  list ManagedDnsRecord -> list ManagedDnsRecord.
Variables rangeOrder1 rangeOrder2 :
  list (string * list ManagedDnsRecord) -> list (string * list ManagedDnsRecord).

Hypothesis SortFunc1_perm : forall l, SortFunc1 PriorityComparator l ≡ₚ l.
Hypothesis SortFunc1_sorted :
  forall l, StronglySorted byPriority (SortFunc1 PriorityComparator l).
Hypothesis SortFunc2_perm : forall l, SortFunc2 PriorityComparator l ≡ₚ l.
Hypothesis SortFunc2_sorted :
  forall l, StronglySorted byPriority (SortFunc2 PriorityComparator l).
Hypothesis rangeOrder1_perm : forall l, rangeOrder1 l ≡ₚ l.
Hypothesis rangeOrder2_perm : forall l, rangeOrder2 l ≡ₚ l.

(** When no two healthy records of one type share a priority, the records
    selected do not depend on how the sort orders equal elements nor on the
    order of the walk over the map: two runs give the same records, up to
    their order. *)
Theorem selection_independent_of_order hostname ips :
  (forall r r', r ∈ ips -> r' ∈ ips ->
     isHealthyState r = true -> isHealthyState r' = true ->
     DnsType (record r) = DnsType (record r') ->
     Priority (record r) = Priority (record r') -> r = r') ->
  filterHealthyIps SortFunc1 rangeOrder1 hostname ips
  ≡ₚ filterHealthyIps SortFunc2 rangeOrder2 hostname ips.
Proof.
  intros Hdistinct.
  rewrite (DomainProps.filterHealthyIps_omap SortFunc1 rangeOrder1 rangeOrder1_perm).
  rewrite (DomainProps.filterHealthyIps_omap SortFunc2 rangeOrder2 rangeOrder2_perm).
  rewrite (omap_ext_elem (firstOf SortFunc1) (firstOf SortFunc2)); [done|].
  intros [ty l] Hin. apply elem_of_map_to_list in Hin.
  destruct (DomainProps.firstOf_group SortFunc1 SortFunc1_perm SortFunc1_sorted
              _ _ _ Hin) as (r1 & -> & Hin1 & Hh1 & Hty1 & Hmax1).
  destruct (DomainProps.firstOf_group SortFunc2 SortFunc2_perm SortFunc2_sorted
              _ _ _ Hin) as (r2 & -> & Hin2 & Hh2 & Hty2 & Hmax2).
  f_equal. apply Hdistinct; try done; [congruence|].
  pose proof (Hmax1 r2 Hin2 Hh2 Hty2). pose proof (Hmax2 r1 Hin1 Hh1 Hty1). lia.
Qed.

End TwoRuns.

Lemma updateMetrics_fold (ipStr : ManagedDnsRecord -> string) (A : gset string) ips n l :
  fold_left
    (fun acc ip =>
       if bool_decide (ipStr ip ∈ A)
       then (S (fst acc), snd acc ++ [(ipStr ip, 1)])
       else (fst acc, snd acc ++ [(ipStr ip, 0)]))
    ips (n, l)
  = ((n + length (filter (fun ip => ipStr ip ∈ A) ips))%nat,
     l ++ ((fun ip => (ipStr ip, if bool_decide (ipStr ip ∈ A) then 1 else 0)) <$> ips)).
Proof.
  revert n l. induction ips as [|ip ips IH]; intros n l; simpl.
  - by rewrite Nat.add_0_r, app_nil_r.
  - destruct (decide (ipStr ip ∈ A)) as [Hin|Hnin].
    + rewrite bool_decide_eq_true_2 by done. simpl. rewrite IH.
      rewrite filter_cons_True by done. simpl.
      f_equal; [lia|]. by rewrite <- app_assoc.
    + rewrite bool_decide_eq_false_2 by done. simpl. rewrite IH.
      rewrite filter_cons_False by done.
      f_equal. by rewrite <- app_assoc.
Qed.

Lemma updateMetrics_activeRecords ipStr ips A :
  activeRecords (updateMetrics ipStr ips A)
  = length (filter (fun ip => ipStr ip ∈ A) ips).
Proof. unfold updateMetrics. by rewrite updateMetrics_fold. Qed.

Section Gauges.

Variable SortFunc :
  (ManagedDnsRecord -> ManagedDnsRecord -> Z) ->
  list ManagedDnsRecord -> list ManagedDnsRecord.
Variable rangeOrder :
  list (string * list ManagedDnsRecord) -> list (string * list ManagedDnsRecord).
Variable ipStr : ManagedDnsRecord -> string.

Hypothesis SortFunc_perm : forall l, SortFunc PriorityComparator l ≡ₚ l.
Hypothesis SortFunc_sorted :
  forall l, StronglySorted byPriority (SortFunc PriorityComparator l).
Hypothesis rangeOrder_perm : forall l, rangeOrder l ≡ₚ l.

Lemma selection_NoDup hostname ips :
  NoDup (filterHealthyIps SortFunc rangeOrder hostname ips).
Proof.
  rewrite (DomainProps.filterHealthyIps_omap SortFunc rangeOrder rangeOrder_perm).
  apply omap_typed_NoDup; [apply NoDup_fst_map_to_list|].
  intros [ty l] r Hin Hr. apply elem_of_map_to_list in Hin.
  destruct (DomainProps.firstOf_group SortFunc SortFunc_perm SortFunc_sorted
              _ _ _ Hin) as (r' & Hr' & _ & _ & Hty & _).
  simpl. congruence.
Qed.

Lemma selection_subset hostname ips r :
  r ∈ filterHealthyIps SortFunc rangeOrder hostname ips -> r ∈ ips.
Proof.
  rewrite (DomainProps.filterHealthyIps_omap SortFunc rangeOrder rangeOrder_perm).
  intros Hr. apply list_elem_of_omap in Hr as ([ty l] & Hin & Hf).
  apply elem_of_map_to_list in Hin.
  destruct (DomainProps.firstOf_group SortFunc SortFunc_perm SortFunc_sorted
              _ _ _ Hin) as (r' & Hr' & Hin' & _).
  congruence.
Qed.

(** When the addresses of the records of a hostname print differently, the
    gauge of the active records that the selection leaves behind is the
    number of records it returned, and the gauge of the configured records
    is the number of records it was given. *)
Theorem gauges_count_selection hostname ips :
  NoDup (ipStr <$> ips) ->
  let selected := filterHealthyIps SortFunc rangeOrder hostname ips in
  activeRecords (selectionGauges ipStr ips selected) = length selected /\
  configuredRecords (selectionGauges ipStr ips selected) = length ips.
Proof.
  intros Hnd selected. split.
  2: { unfold selectionGauges, updateMetrics.
       by destruct (fold_left _ _ _). }
  unfold selectionGauges. rewrite updateMetrics_activeRecords.
  apply Permutation_length, NoDup_Permutation.
  - apply NoDup_filter. exact (NoDup_fmap_1 ipStr ips Hnd).
  - apply selection_NoDup.
  - intros r. rewrite list_elem_of_filter, elem_of_list_to_set, list_elem_of_fmap.
    split.
    + intros [(r' & Heq & Hr') Hin].
      assert (r = r') as ->; [|done].
      apply list_elem_of_lookup in Hin as [i Hi].
      pose proof (selection_subset _ _ _ Hr') as Hin'.
      apply list_elem_of_lookup in Hin' as [j Hj].
      assert (i = j) as ->; [|congruence].
      eapply NoDup_lookup; [exact Hnd| |].
      * rewrite list_lookup_fmap, Hi. done.
      * rewrite list_lookup_fmap, Hj. simpl. by rewrite Heq.
    + intros Hr. split; [by exists r|]. exact (selection_subset hostname ips r Hr).
Qed.

End Gauges.

Lemma gauges_count_selection_witness :
  let ipStr := fun r => ipString noIp6 (Ip (record r)) in
  (forall l, mergeSortFunc PriorityComparator l ≡ₚ l) /\
  (forall l, StronglySorted byPriority (mergeSortFunc PriorityComparator l)) /\
  (forall l : list (string * list ManagedDnsRecord), id l ≡ₚ l) /\
  NoDup (ipStr <$> sampleIps) /\
  activeRecords
    (selectionGauges ipStr sampleIps (filterHealthyIps mergeSortFunc id "xxx" sampleIps))
  = length (filterHealthyIps mergeSortFunc id "xxx" sampleIps).
Proof.
  intros ipStr.
  assert (Hnd : NoDup (ipStr <$> sampleIps)).
  { apply (bool_decide_unpack _). by vm_compute. }
  split; [exact DomainProps.mergeSortFunc_perm|].
  split; [exact DomainProps.mergeSortFunc_sorted|].
  split; [reflexivity|]. split; [exact Hnd|].
  apply (gauges_count_selection mergeSortFunc id ipStr
           DomainProps.mergeSortFunc_perm DomainProps.mergeSortFunc_sorted
           (fun l => reflexivity (id l)) "xxx" sampleIps Hnd).
Defined.

Lemma selection_independent_of_order_witness :
  (forall l, mergeSortFunc PriorityComparator l ≡ₚ l) /\
  (forall l, StronglySorted byPriority (mergeSortFunc PriorityComparator l)) /\
  (forall l : list (string * list ManagedDnsRecord), id l ≡ₚ l) /\
  (forall l : list (string * list ManagedDnsRecord), rev l ≡ₚ l) /\
  (forall r r', r ∈ sampleIps -> r' ∈ sampleIps ->
     isHealthyState r = true -> isHealthyState r' = true ->
     DnsType (record r) = DnsType (record r') ->
     Priority (record r) = Priority (record r') -> r = r') /\
  filterHealthyIps mergeSortFunc id "xxx" sampleIps
  ≡ₚ filterHealthyIps mergeSortFunc (@rev _) "xxx" sampleIps.
Proof.
  assert (Hrev : forall l : list (string * list ManagedDnsRecord), rev l ≡ₚ l).
  { intros l. symmetry. apply Permutation_rev. }
  assert (Hd : forall r r', r ∈ sampleIps -> r' ∈ sampleIps ->
     isHealthyState r = true -> isHealthyState r' = true ->
     DnsType (record r) = DnsType (record r') ->
     Priority (record r) = Priority (record r') -> r = r').
  { intros r r' Hr Hr'. unfold sampleIps in *.
    repeat (apply elem_of_cons in Hr as [->|Hr]);
      try (by apply not_elem_of_nil in Hr);
      repeat (apply elem_of_cons in Hr' as [->|Hr']);
      try (by apply not_elem_of_nil in Hr');
      simpl; intros; try done; try lia. }
  split; [exact DomainProps.mergeSortFunc_perm|].
  split; [exact DomainProps.mergeSortFunc_sorted|].
  split; [reflexivity|]. split; [exact Hrev|]. split; [exact Hd|].
  apply (selection_independent_of_order mergeSortFunc mergeSortFunc id (@rev _)
           DomainProps.mergeSortFunc_perm DomainProps.mergeSortFunc_sorted
           DomainProps.mergeSortFunc_perm DomainProps.mergeSortFunc_sorted
           (fun l => reflexivity (id l)) Hrev "xxx" sampleIps Hd).
Defined.

End SelectionFacts.

(** ** Further properties of the reconciliation *)

Module ReconcileFacts.

Import Domain Unbound Manager Terms.

(** *** removeIndices *)



(** *** The lines of FsImpl *)







End ReconcileFacts.

(** ** Further properties of UpdateIps *)

Module UpdateIpsFacts.

Import Domain Unbound Manager Terms.

Lemma prefix_cons a s t : String.prefix (String a s) (String a t) = String.prefix s t.
Proof. simpl. by destruct (ascii_dec a a). Qed.

Lemma prefix_cons_inv a b s t :
  String.prefix (String a s) (String b t) = true ->
  a = b /\ String.prefix s t = true.
Proof.
  change (String.prefix (String a s) (String b t))
    with (if ascii_dec a b then String.prefix s t else false).
  by destruct (ascii_dec a b).
Qed.

(** Of two hostnames without blank, followed by a blank each, one is the
    beginning of the other (and of what follows it) only if they are the
    same. *)
Lemma prefix_hostnames h' : forall h tail,
  noBlank h' = true -> noBlank h = true ->
  String.prefix (h' ++ " ") ((h ++ " ") ++ tail) = true -> h' = h.
Proof.
  induction h' as [|a h' IH]; intros h tail Hb' Hb Hp.
  - destruct h as [|c h]; [done|].
    apply (prefix_cons_inv " " c EmptyString ((h ++ " ") ++ tail)) in Hp as [<- _].
    done.
  - destruct h as [|c h].
    + apply (prefix_cons_inv a " " (h' ++ " ") tail) in Hp as [-> _]. done.
    + apply (prefix_cons_inv a c (h' ++ " ") ((h ++ " ") ++ tail)) in Hp as [-> Hp].
      change (noBlank (String c h')) with (negb (Ascii.eqb c " ") && noBlank h') in Hb'.
      change (noBlank (String c h)) with (negb (Ascii.eqb c " ") && noBlank h) in Hb.
      apply andb_true_iff in Hb' as [_ Hb'].
      apply andb_true_iff in Hb as [_ Hb].
      f_equal. by eapply IH.
Qed.

Lemma string_app_assoc (a b c : string) : ((a ++ b) ++ c = a ++ (b ++ c))%string.
Proof.
  induction a as [|x a IH]; [done|].
  change (String x ((a ++ b) ++ c) = String x (a ++ (b ++ c)))%string.
  by f_equal.
Qed.

Lemma prefix_app_both (p x y : string) :
  String.prefix (p ++ x) (p ++ y) = String.prefix x y.
Proof.
  induction p as [|a p IH]; [done|].
  change (String.prefix (String a (p ++ x)) (String a (p ++ y)) = String.prefix x y).
  by rewrite prefix_cons.
Qed.

(** A canonical line of a hostname is owned by another hostname only if
    the two are the same, when neither holds a blank. *)
Lemma canonical_line_owner ip6String h h' r :
  noBlank h' = true -> noBlank h = true ->
  owned h' (recordToUnbound ip6String h r) -> h' = h.
Proof.
  intros Hb' Hb. unfold owned, HasPrefix, recordToUnbound, ownedPrefix.
  rewrite !string_app_assoc, !prefix_app_both.
  rewrite <- string_app_assoc.
  by apply prefix_hostnames.
Qed.

Lemma filter_filter_weaker {A} (P Q : A -> Prop)
    `{!forall x, Decision (P x)} `{!forall x, Decision (Q x)} (l : list A) :
  (forall x, P x -> Q x) -> filter P (filter Q l) = filter P l.
Proof.
  intros HPQ. rewrite list_filter_filter. apply list_filter_iff.
  intros x. split; [tauto|]. intros Hp. split; [done|]. by apply HPQ.
Qed.

Section Calls.

Context {S : Type} `{!UnboundConfWrapper S}.

Variable ip6String : Net.IP -> string.
Variables rangeMissing rangeAnchor :
  list (string * option nat) -> list (string * option nat).

Hypothesis rangeMissing_perm : forall l, rangeMissing l ≡ₚ l.
Hypothesis rangeAnchor_perm : forall l, rangeAnchor l ≡ₚ l.

(** The lines handed to a write, taken apart: the lines of the file that
    are not stale, and the desired lines the file lacked. *)
Lemma written_parts (fs : S) dnsRecord records lines c e lines3 fs' :
  ReadConf fs = inl lines ->
  UpdateIps ip6String rangeMissing rangeAnchor fs dnsRecord records
    = Return c e (Some lines3) fs' ->
  let D := desiredLines ip6String dnsRecord records in
  exists missing i,
    (forall k, k ∈ missing <-> k ∈ D /\ k ∉ lines) /\
    (lines3 = filter (fun l => ~ stale dnsRecord D l) lines ++ missing \/
     lines3 = take i (filter (fun l => ~ stale dnsRecord D l) lines) ++ missing
              ++ drop i (filter (fun l => ~ stale dnsRecord D l) lines)).
Proof.
  intros Hread Hcall D.
  destruct (UnboundProps.UpdateIps_cases ip6String rangeMissing rangeAnchor
              fs dnsRecord records lines Hread)
    as (w & rm & Hscan & [(_ & _ & Heq)|(_ & Heq)]);
    rewrite Heq in Hcall; [done|].
  exists (collectMissing (rangeMissing (map_to_list w))),
         (anchorIndex (rangeAnchor (map_to_list w))).
  split.
  - intros k.
    apply (UnboundProps.missing_elem _ _ _ _ _ _ Hscan _ (rangeMissing_perm _)).
  - destruct (Nat.eqb _ _).
    + left. by simplify_eq.
    + destruct (slicesInsert _ _ _) as [l3|] eqn:Hins; [|done].
      apply UnboundProps.slicesInsert_Some in Hins as [_ ->].
      right. by simplify_eq.
Qed.

Lemma unowned_lines_kept (fs : S) dnsRecord records lines c e lines3 fs' :
  ReadConf fs = inl lines ->
  UpdateIps ip6String rangeMissing rangeAnchor fs dnsRecord records
    = Return c e (Some lines3) fs' ->
  filter (fun l => ~ owned dnsRecord l) lines3
  = filter (fun l => ~ owned dnsRecord l) lines.
Proof.
  intros Hread Hcall.
  destruct (written_parts _ _ _ _ _ _ _ _ Hread Hcall)
    as (missing & i & Hmiss & Hlines3).
  assert (Hown : forall x, x ∈ missing -> owned dnsRecord x).
  { intros x Hx. apply Hmiss in Hx as [Hx _].
    by eapply UnboundProps.desiredLines_owned. }
  assert (Hsurv : filter (fun l => ~ owned dnsRecord l)
                    (filter (fun l => ~ stale dnsRecord
                                        (desiredLines ip6String dnsRecord records) l)
                            lines)
                  = filter (fun l => ~ owned dnsRecord l) lines).
  { apply filter_filter_weaker. intros x Hx [Ho _]. done. }
  destruct Hlines3 as [->| ->].
  - rewrite filter_app, (UnboundProps.filter_none _ missing), app_nil_r; [done|].
    intros x Hx Hn. by apply Hn, Hown.
  - by rewrite (UnboundProps.filter_inserted (owned dnsRecord)).
Qed.

(** Whatever the file and the desired records: the lines a call writes
    that are not owned by the hostname are the lines of that kind it read,
    each of them, unchanged and in their order. *)
Theorem other_lines_untouched (fs : S) dnsRecord records lines c e lines3 fs' :
  ReadConf fs = inl lines ->
  UpdateIps ip6String rangeMissing rangeAnchor fs dnsRecord records
    = Return c e (Some lines3) fs' ->
  filter (fun l => ~ owned dnsRecord l) lines3
  = filter (fun l => ~ owned dnsRecord l) lines.
Proof. apply unowned_lines_kept. Qed.

(** The lines a call writes hold every desired line, and no line owned by
    the hostname that is not desired, whether or not the write then
    succeeds. *)
Theorem written_lines_converged (fs : S) dnsRecord records lines c e lines3 fs' :
  ReadConf fs = inl lines ->
  UpdateIps ip6String rangeMissing rangeAnchor fs dnsRecord records
    = Return c e (Some lines3) fs' ->
  let D := desiredLines ip6String dnsRecord records in
  (forall k, k ∈ D -> k ∈ lines3) /\
  (forall l, l ∈ lines3 -> owned dnsRecord l -> l ∈ D).
Proof.
  intros Hread Hcall D.
  destruct (written_parts _ _ _ _ _ _ _ _ Hread Hcall)
    as (missing & i & Hmiss & Hlines3).
  fold D in Hmiss, Hlines3.
  assert (Hperm : lines3 ≡ₚ filter (fun l => ~ stale dnsRecord D l) lines ++ missing).
  { destruct Hlines3 as [->| ->]; [done|apply UnboundProps.inserted_perm]. }
  split.
  - intros k Hk. rewrite Hperm, elem_of_app.
    destruct (decide (k ∈ lines)) as [Hin|Hnin].
    + left. apply list_elem_of_filter. split; [|done]. by intros [_ ?].
    + right. by apply Hmiss.
  - intros l Hl Ho. rewrite Hperm, elem_of_app in Hl.
    destruct Hl as [Hl|Hl].
    + apply list_elem_of_filter in Hl as [Hn _].
      destruct (decide (l ∈ D)); [done|]. exfalso. by apply Hn.
    + by apply Hmiss in Hl as [? _].
Qed.

(** A call on a file without stale line never panics, whatever the
    desired records are. *)
Theorem no_panic_without_stale (fs : S) dnsRecord records lines :
  ReadConf fs = inl lines ->
  (forall l, l ∈ lines -> owned dnsRecord l ->
             l ∈ desiredLines ip6String dnsRecord records) ->
  UpdateIps ip6String rangeMissing rangeAnchor fs dnsRecord records <> Panic.
Proof.
  intros Hread Hnostale.
  destruct (UnboundProps.UpdateIps_cases ip6String rangeMissing rangeAnchor
              fs dnsRecord records lines Hread)
    as (w & rm & Hscan & [(_ & _ & Heq)|(_ & Heq)]); rewrite Heq; [done|].
  destruct (Nat.eqb _ _); [done|].
  rewrite (UnboundProps.filter_all (fun l => ~ stale dnsRecord _ l) lines)
    by (intros l Hl [Ho Hn]; by apply Hn, Hnostale).
  unfold slicesInsert.
  destruct (UnboundProps.anchor_index _ _ _ _ _ _ Hscan _ (rangeAnchor_perm _))
    as [[_ ->]|(k & Hk & _)].
  - simpl. done.
  - apply lookup_lt_Some in Hk.
    destruct (Nat.leb_spec (anchorIndex (rangeAnchor (map_to_list w))) (length lines));
      [done|lia].
Qed.

(** A call for one hostname leaves the canonical lines of every other
    hostname as often in the lines it writes as they stood in the file,
    when neither hostname holds a blank. *)
Theorem other_hostnames_lines_kept (fs : S) dnsRecord records lines c e lines3 fs'
    other ip6String' r :
  noBlank dnsRecord = true -> noBlank other = true -> other <> dnsRecord ->
  ReadConf fs = inl lines ->
  UpdateIps ip6String rangeMissing rangeAnchor fs dnsRecord records
    = Return c e (Some lines3) fs' ->
  occurrences (recordToUnbound ip6String' other r) lines3
  = occurrences (recordToUnbound ip6String' other r) lines.
Proof.
  intros Hb Hbo Hne Hread Hcall.
  pose proof (unowned_lines_kept _ _ _ _ _ _ _ _ Hread Hcall) as Hrest.
  unfold occurrences.
  set (k := recordToUnbound ip6String' other r).
  assert (Hk : forall x, x = k -> ~ owned dnsRecord x).
  { intros x -> Ho. apply Hne. symmetry.
    by eapply canonical_line_owner. }
  rewrite <- (filter_filter_weaker (fun l => l = k) (fun l => ~ owned dnsRecord l) lines3)
    by done.
  rewrite <- (filter_filter_weaker (fun l => l = k) (fun l => ~ owned dnsRecord l) lines)
    by done.
  by rewrite Hrest.
Qed.

End Calls.

(** A file with the lines of two hostnames. *)
Lemma other_hostnames_lines_kept_witness :
  let fs := fileOf [line "h 60 A 10.0.0.1"; line "h2 30 A 10.0.0.7"] in
  let other := mkManaged (mkDnsRecord 1 "A" (Net.v4InV6Prefix ++ [10; 0; 0; 7]) 30)
                         "h2" (Status.Healthy 5 5 5) in
  (forall l, walkId l ≡ₚ l) /\
  noBlank "h" = true /\ noBlank "h2" = true /\ "h2"%string <> "h"%string /\
  ReadConf fs = inl [line "h 60 A 10.0.0.1"; line "h2 30 A 10.0.0.7"] /\
  UpdateIps noIp6 walkId walkId fs "h" [rec4 10 0 0 1 30]
    = Return true None (Some [line "h2 30 A 10.0.0.7"; line "h 30 A 10.0.0.1"])
        (fileOf [line "h2 30 A 10.0.0.7"; line "h 30 A 10.0.0.1"]) /\
  occurrences (recordToUnbound noIp6 "h2" other)
              [line "h2 30 A 10.0.0.7"; line "h 30 A 10.0.0.1"]
  = occurrences (recordToUnbound noIp6 "h2" other)
                [line "h 60 A 10.0.0.1"; line "h2 30 A 10.0.0.7"].
Proof.
  intros fs other.
  assert (Hread : ReadConf fs = inl [line "h 60 A 10.0.0.1"; line "h2 30 A 10.0.0.7"])
    by (by vm_compute).
  assert (Hcall : UpdateIps noIp6 walkId walkId fs "h" [rec4 10 0 0 1 30]
    = Return true None (Some [line "h2 30 A 10.0.0.7"; line "h 30 A 10.0.0.1"])
        (fileOf [line "h2 30 A 10.0.0.7"; line "h 30 A 10.0.0.1"]))
    by (by vm_compute).
  split; [reflexivity|]. split; [reflexivity|]. split; [reflexivity|].
  split; [done|]. split; [exact Hread|]. split; [exact Hcall|].
  apply (other_hostnames_lines_kept noIp6 walkId walkId (fun l => reflexivity l)
           fs "h" [rec4 10 0 0 1 30] _ true None _ _ "h2" noIp6 other
           eq_refl eq_refl ltac:(done) Hread Hcall).
Defined.

Lemma other_lines_untouched_witness :
  (forall l, walkId l ≡ₚ l) /\
  ReadConf fsTwo = inl [line "h 30 A 10.0.0.1"; "server:"%string; line "h 30 A 10.0.0.2"] /\
  UpdateIps noIp6 walkId walkId fsTwo "h" [rec4 10 0 0 3 30]
    = Return true None (Some ["server:"%string; line "h 30 A 10.0.0.3"])
        (fileOf ["server:"%string; line "h 30 A 10.0.0.3"]) /\
  filter (fun l => ~ owned "h" l) ["server:"%string; line "h 30 A 10.0.0.3"]
  = filter (fun l => ~ owned "h" l)
           [line "h 30 A 10.0.0.1"; "server:"%string; line "h 30 A 10.0.0.2"].
Proof.
  assert (Hread : ReadConf fsTwo
            = inl [line "h 30 A 10.0.0.1"; "server:"%string; line "h 30 A 10.0.0.2"])
    by (by vm_compute).
  assert (Hcall : UpdateIps noIp6 walkId walkId fsTwo "h" [rec4 10 0 0 3 30]
    = Return true None (Some ["server:"%string; line "h 30 A 10.0.0.3"])
        (fileOf ["server:"%string; line "h 30 A 10.0.0.3"])) by (by vm_compute).
  split; [reflexivity|]. split; [exact Hread|]. split; [exact Hcall|].
  apply (other_lines_untouched noIp6 walkId walkId (fun l => reflexivity l)
           fsTwo "h" [rec4 10 0 0 3 30] _ true None _ _ Hread Hcall).
Defined.

Lemma written_lines_converged_witness :
  (forall l, walkId l ≡ₚ l) /\
  ReadConf fsTwo = inl [line "h 30 A 10.0.0.1"; "server:"%string; line "h 30 A 10.0.0.2"] /\
  UpdateIps noIp6 walkId walkId fsTwo "h" [rec4 10 0 0 3 30]
    = Return true None (Some ["server:"%string; line "h 30 A 10.0.0.3"])
        (fileOf ["server:"%string; line "h 30 A 10.0.0.3"]) /\
  (forall k, k ∈ desiredLines noIp6 "h" [rec4 10 0 0 3 30] ->
             k ∈ ["server:"%string; line "h 30 A 10.0.0.3"]).
Proof.
  assert (Hread : ReadConf fsTwo
            = inl [line "h 30 A 10.0.0.1"; "server:"%string; line "h 30 A 10.0.0.2"])
    by (by vm_compute).
  assert (Hcall : UpdateIps noIp6 walkId walkId fsTwo "h" [rec4 10 0 0 3 30]
    = Return true None (Some ["server:"%string; line "h 30 A 10.0.0.3"])
        (fileOf ["server:"%string; line "h 30 A 10.0.0.3"])) by (by vm_compute).
  split; [reflexivity|]. split; [exact Hread|]. split; [exact Hcall|].
  apply (written_lines_converged noIp6 walkId walkId (fun l => reflexivity l)
           fsTwo "h" [rec4 10 0 0 3 30] _ true None _ _ Hread Hcall).
Defined.

Lemma no_panic_without_stale_witness :
  (forall l, walkId l ≡ₚ l) /\
  ReadConf fsOne = inl ["server:"%string; line "h 30 A 10.0.0.1"] /\
  (forall l, l ∈ ["server:"%string; line "h 30 A 10.0.0.1"] -> owned "h" l ->
             l ∈ desiredLines noIp6 "h" twoRecords) /\
  UpdateIps noIp6 walkId walkId fsOne "h" twoRecords <> Panic.
Proof.
  assert (Hread : ReadConf fsOne = inl ["server:"%string; line "h 30 A 10.0.0.1"])
    by (by vm_compute).
  assert (Hns : forall l, l ∈ ["server:"%string; line "h 30 A 10.0.0.1"] ->
                  owned "h" l -> l ∈ desiredLines noIp6 "h" twoRecords).
  { intros l Hl Ho. repeat (apply elem_of_cons in Hl as [->|Hl]).
    - by vm_compute in Ho.
    - left.
    - by apply not_elem_of_nil in Hl. }
  split; [reflexivity|]. split; [exact Hread|]. split; [exact Hns|].
  apply (no_panic_without_stale noIp6 walkId walkId (fun l => reflexivity l)
           fsOne "h" twoRecords _ Hread Hns).
Defined.

End UpdateIpsFacts.

(** ** Properties of the record manager *)

Module ManagerFacts.

Import Domain Unbound Manager Terms.

Lemma noneHealthy_selects_nothing SortFunc rangeOrder hostname ips :
  noneHealthy ips -> filterHealthyIps SortFunc rangeOrder hostname ips = [].
Proof.
  intros Hnone. unfold filterHealthyIps.
  assert (groupHealthy ips = ∅) as ->; [|done].
  apply map_eq. intros ty. rewrite DomainProps.groupHealthy_lookup, lookup_empty.
  unfold healthyOfType.
  rewrite (UnboundProps.filter_none _ ips); [done|].
  intros r Hr [Hh _]. rewrite (Hnone r Hr) in Hh. done.
Qed.

Section Rounds.

Context {S : Type} `{!UnboundConfWrapper S}.

Variable env : Env S.

(** While no record of a hostname is healthy, [updateRecords] returns
    false and leaves the file alone: it neither reads nor writes it.  It
    logs the warning, and marks the hostname, only if the hostname is not
    marked yet and some record has left [initial]. *)
Theorem no_healthy_record_keeps_file (st : State S) hostname ips :
  noneHealthy ips ->
  exists st',
    updateRecords env st hostname ips = Some (false, st') /\
    dnsDb st' = dnsDb st /\
    isUnhealthyHost st' hostname
      = isUnhealthyHost st hostname || negb (isInitialState ips) /\
    events st'
      = events st ++
        (if negb (isUnhealthyHost st hostname) && negb (isInitialState ips)
         then [Warned hostname] else []).
Proof.
  intros Hnone. unfold updateRecords.
  rewrite (noneHealthy_selects_nothing _ _ _ _ Hnone). simpl.
  destruct (isUnhealthyHost st hostname) eqn:Hflag;
    destruct (isInitialState ips) eqn:Hinit; simpl;
    eexists; (split; [reflexivity|]); simpl;
    rewrite ?app_nil_r, ?Hflag; repeat split; try done.
  unfold isUnhealthyHost. simpl. by rewrite lookup_insert_eq.
Qed.

(** Once a hostname is marked as without healthy address, further rounds
    in which none of its records is healthy change nothing: the warning is
    not logged again. *)
Theorem warning_not_repeated (st : State S) hostname ips :
  isUnhealthyHost st hostname = true ->
  noneHealthy ips ->
  updateRecords env st hostname ips = Some (false, st).
Proof.
  intros Hflag Hnone. unfold updateRecords.
  rewrite (noneHealthy_selects_nothing _ _ _ _ Hnone). simpl.
  by rewrite Hflag.
Qed.

(** [updateRecords] returns true only after a write of the file that
    succeeded and that the checker of the configuration accepted. *)
Theorem true_means_written_and_valid (st st' : State S) hostname ips :
  updateRecords env st hostname ips = Some (true, st') ->
  envValidateConfig env (dnsDb st') = None /\
  exists lines3,
    UpdateIps (envIp6String env) (envRangeMissing env) (envRangeAnchor env)
              (dnsDb st) hostname
              (filterHealthyIps (envSort env) (envRangeOrder env) hostname ips)
    = Return true None (Some lines3) (dnsDb st').
Proof.
  unfold updateRecords.
  destruct (Nat.eqb _ 0); [by repeat case_match|].
  set (st1 := if isUnhealthyHost st hostname then _ else st).
  assert (Hdb : dnsDb st1 = dnsDb st) by (unfold st1; by destruct (isUnhealthyHost _ _)).
  rewrite Hdb.
  destruct (UpdateIps _ _ _ _ _ _) as [|updated err written fs'] eqn:Hcall; [done|].
  destruct err; [done|]. destruct updated; [|done].
  destruct (envValidateConfig env fs') eqn:Hval; [done|].
  intros [= <-]. simpl. split; [done|].
  destruct written as [lines3|]; [by exists lines3|].
  exfalso.
  destruct (ReadConf (dnsDb st)) as [lines|e] eqn:Hread.
  - destruct (UnboundProps.UpdateIps_cases (envIp6String env) (envRangeMissing env)
                (envRangeAnchor env) (dnsDb st) hostname
                (filterHealthyIps (envSort env) (envRangeOrder env) hostname ips)
                lines Hread)
      as (w & rm & _ & [(_ & _ & Heq)|(_ & Heq)]); rewrite Heq in Hcall; [done|].
    by repeat case_match.
  - by rewrite (UnboundProps.UpdateIps_read_error _ _ _ _ _ _ _ Hread) in Hcall.
Qed.

End Rounds.

Lemma unhealthyPair_noneHealthy : noneHealthy unhealthyPair.
Proof.
  intros r Hr. unfold unhealthyPair in Hr.
  repeat (apply elem_of_cons in Hr as [->|Hr]); try done.
  by apply not_elem_of_nil in Hr.
Qed.

Lemma no_healthy_record_keeps_file_witness :
  noneHealthy unhealthyPair /\
  exists st',
    updateRecords (sampleEnv true) (mkState fsDrift ∅ []) "h" unhealthyPair
      = Some (false, st') /\
    dnsDb st' = fsDrift.
Proof.
  split; [exact unhealthyPair_noneHealthy|].
  destruct (no_healthy_record_keeps_file (sampleEnv true) (mkState fsDrift ∅ [])
              "h" unhealthyPair unhealthyPair_noneHealthy)
    as (st' & Hu & Hdb & _).
  exists st'. split; [exact Hu|exact Hdb].
Defined.

Lemma warning_not_repeated_witness :
  let st := mkState fsDrift {["h"%string := true]} [Warned "h"] in
  isUnhealthyHost st "h" = true /\ noneHealthy unhealthyPair /\
  updateRecords (sampleEnv true) st "h" unhealthyPair = Some (false, st).
Proof.
  intros st. split; [reflexivity|]. split; [exact unhealthyPair_noneHealthy|].
  apply (warning_not_repeated (sampleEnv true) st "h" unhealthyPair eq_refl
           unhealthyPair_noneHealthy).
Defined.

Lemma true_means_written_and_valid_witness :
  updateRecords (sampleEnv true) (mkState fsDrift ∅ []) "h" [rec4 10 0 0 1 30]
    = Some (true, mkState fsDriftFixed ∅ []) /\
  envValidateConfig (sampleEnv true) fsDriftFixed = None.
Proof.
  assert (Hu : updateRecords (sampleEnv true) (mkState fsDrift ∅ []) "h"
                 [rec4 10 0 0 1 30] = Some (true, mkState fsDriftFixed ∅ []))
    by (by vm_compute).
  split; [exact Hu|].
  apply (true_means_written_and_valid (sampleEnv true) (mkState fsDrift ∅ [])
           (mkState fsDriftFixed ∅ []) "h" [rec4 10 0 0 1 30] Hu).
Defined.

Section Rejected.

Context {S : Type} `{!UnboundConfWrapper S}.

Variable env : Env S.

Hypothesis rangeMissing_perm : forall l, envRangeMissing env l ≡ₚ l.

(** A change that the checker of the configuration rejects is on disk all
    the same, and [updateRecords] returns false; if the file reads back as
    written, the next round with the same records finds nothing to change
    and returns false again, whatever the checker would say then: the
    change is never followed by a reload. *)
Theorem rejected_change_is_never_reloaded (st : State S) hostname ips lines3 fs1 err :
  let selected := filterHealthyIps (envSort env) (envRangeOrder env) hostname ips in
  selected <> [] ->
  UpdateIps (envIp6String env) (envRangeMissing env) (envRangeAnchor env)
            (dnsDb st) hostname selected
    = Return true None (Some lines3) fs1 ->
  envValidateConfig env fs1 = Some err ->
  ReadConf fs1 = inl lines3 ->
  exists st1,
    updateRecords env st hostname ips = Some (false, st1) /\
    dnsDb st1 = fs1 /\
    forall validate, updateRecords (withValidate validate env) st1 hostname ips
                     = Some (false, st1).
Proof.
  intros selected Hsel Hcall Hval Hback.
  assert (Hlen : Nat.eqb (length selected) 0 = false).
  { apply Nat.eqb_neq. by destruct selected. }
  set (st0 := if isUnhealthyHost st hostname
              then mkState (dnsDb st) (<[hostname := false]> (unhealthyHosts st))
                           (events st ++ [Recovered hostname])
              else st).
  assert (Hdb : dnsDb st0 = dnsDb st)
    by (unfold st0; by destruct (isUnhealthyHost st hostname)).
  assert (Hflag : default false (unhealthyHosts st0 !! hostname) = false).
  { unfold st0. destruct (isUnhealthyHost st hostname) eqn:Hf; simpl.
    - by rewrite lookup_insert_eq.
    - exact Hf. }
  exists (mkState fs1 (unhealthyHosts st0)
                  (events st0 ++ [ErrorCounted hostname "dns_invalid_config"])).
  split; [|split; [done|]].
  - unfold updateRecords. fold selected. rewrite Hlen. fold st0.
    rewrite Hdb, Hcall, Hval. done.
  - intros validate. unfold updateRecords. simpl. fold selected. rewrite Hlen.
    unfold isUnhealthyHost. simpl. rewrite Hflag. simpl.
    destruct (ReadConf (dnsDb st)) as [lines|e] eqn:Hread.
    2: { by rewrite (UnboundProps.UpdateIps_read_error _ _ _ _ _ _ _ Hread) in Hcall. }
    destruct (UpdateIpsFacts.written_parts (envIp6String env) (envRangeMissing env)
                (envRangeAnchor env) rangeMissing_perm _ _ _ _ _ _ _ _ Hread Hcall)
      as (missing & i & Hmiss & Hlines3).
    set (D := desiredLines (envIp6String env) hostname selected) in *.
    assert (Hperm : lines3 ≡ₚ filter (fun l => ~ stale hostname D l) lines ++ missing).
    { destruct Hlines3 as [->| ->]; [done|apply UnboundProps.inserted_perm]. }
    rewrite (UnboundProps.UpdateIps_nochange (envIp6String env) (envRangeMissing env)
               (envRangeAnchor env) rangeMissing_perm fs1 hostname selected lines3 Hback).
    + done.
    + intros k Hk. rewrite Hperm, elem_of_app.
      destruct (decide (k ∈ lines)) as [Hin|Hnin].
      * left. apply list_elem_of_filter. split; [|done]. by intros [_ ?].
      * right. by apply Hmiss.
    + intros l Hl Ho. rewrite Hperm, elem_of_app in Hl.
      destruct Hl as [Hl|Hl].
      * apply list_elem_of_filter in Hl as [Hn _].
        destruct (decide (l ∈ D)); [done|]. exfalso. by apply Hn.
      * by apply Hmiss in Hl as [? _].
Qed.

End Rejected.

Lemma rejected_change_is_never_reloaded_witness :
  (forall l, envRangeMissing (sampleEnv false) l ≡ₚ l) /\
  filterHealthyIps mergeSortFunc (fun l => l) "h" [rec4 10 0 0 1 30] <> [] /\
  UpdateIps noIp6 walkId walkId fsDrift "h"
            (filterHealthyIps mergeSortFunc (fun l => l) "h" [rec4 10 0 0 1 30])
    = Return true None (Some ["server:"%string; line "h 30 A 10.0.0.1"]) fsDriftFixed /\
  envValidateConfig (sampleEnv false) fsDriftFixed
    = Some (ErrOther "unbound-checkconf failed") /\
  ReadConf fsDriftFixed = inl ["server:"%string; line "h 30 A 10.0.0.1"] /\
  exists st1,
    updateRecords (sampleEnv false) (mkState fsDrift ∅ []) "h" [rec4 10 0 0 1 30]
      = Some (false, st1) /\
    dnsDb st1 = fsDriftFixed /\
    forall validate,
      updateRecords (withValidate validate (sampleEnv false)) st1 "h" [rec4 10 0 0 1 30]
      = Some (false, st1).
Proof.
  assert (Hsel : filterHealthyIps mergeSortFunc (fun l => l) "h" [rec4 10 0 0 1 30] <> [])
    by (by vm_compute).
  assert (Hcall : UpdateIps noIp6 walkId walkId fsDrift "h"
            (filterHealthyIps mergeSortFunc (fun l => l) "h" [rec4 10 0 0 1 30])
    = Return true None (Some ["server:"%string; line "h 30 A 10.0.0.1"]) fsDriftFixed)
    by (by vm_compute).
  assert (Hback : ReadConf fsDriftFixed = inl ["server:"%string; line "h 30 A 10.0.0.1"])
    by (by vm_compute).
  split; [reflexivity|]. split; [exact Hsel|]. split; [exact Hcall|].
  split; [reflexivity|]. split; [exact Hback|].
  apply (rejected_change_is_never_reloaded (sampleEnv false) (fun l => reflexivity l)
           (mkState fsDrift ∅ []) "h" [rec4 10 0 0 1 30] _ fsDriftFixed _
           Hsel Hcall eq_refl Hback).
Defined.

Section Round.

Context {S : Type} `{!UnboundConfWrapper S}.

Variable env : Env S.



End Round.


End ManagerFacts.

(** ** The checks of the configuration *)

Module ConfFacts.

Import Domain Conf.

Lemma checkDuplicates_nil hostname ips : forall (seenPrios : gset Z) (seenIps : gset string),
  checkDuplicates hostname ips seenPrios seenIps = [] <->
  NoDup (cfgPrio <$> ips) /\ NoDup (cfgIP <$> ips) /\
  (forall p, p ∈ cfgPrio <$> ips -> p ∉ seenPrios) /\
  (forall a, a ∈ cfgIP <$> ips -> a ∉ seenIps).
Proof.
  induction ips as [|ip ips IH]; intros seenPrios seenIps.
  - simpl. split; [|done]. intros _.
    repeat split; try constructor; intros ? Hin; by apply not_elem_of_nil in Hin.
  - rewrite !fmap_cons, !NoDup_cons. cbn [checkDuplicates].
    split.
    + intros Hnil.
      apply app_eq_nil in Hnil as [Hp Hnil]. apply app_eq_nil in Hnil as [Ha Hrest].
      apply IH in Hrest as (Hndp & Hnda & Hsp & Hsa).
      assert (cfgPrio ip ∉ seenPrios) as Hp'.
      { intros Hin. by rewrite bool_decide_eq_true_2 in Hp. }
      assert (cfgIP ip ∉ seenIps) as Ha'.
      { intros Hin. by rewrite bool_decide_eq_true_2 in Ha. }
      repeat split; try done.
      * intros Hin. apply (Hsp _ Hin), elem_of_union. left. by apply elem_of_singleton.
      * intros Hin. apply (Hsa _ Hin), elem_of_union. left. by apply elem_of_singleton.
      * intros p Hin. apply elem_of_cons in Hin as [->|Hin]; [done|].
        intros Hs. apply (Hsp _ Hin), elem_of_union. by right.
      * intros a Hin. apply elem_of_cons in Hin as [->|Hin]; [done|].
        intros Hs. apply (Hsa _ Hin), elem_of_union. by right.
    + intros ([Hpn Hndp] & [Han Hnda] & Hsp & Hsa).
      rewrite bool_decide_eq_false_2 by (apply Hsp; left).
      rewrite bool_decide_eq_false_2 by (apply Hsa; left).
      simpl. apply IH. repeat split; try done.
      * intros p Hin. assert (p ∉ seenPrios) by (apply Hsp; by right).
        assert (p <> cfgPrio ip) by (intros ->; done).
        intros [?%elem_of_singleton|?]%elem_of_union; done.
      * intros a Hin. assert (a ∉ seenIps) by (apply Hsa; by right).
        assert (a <> cfgIP ip) by (intros ->; done).
        intros [?%elem_of_singleton|?]%elem_of_union; done.
Qed.

Lemma checkHost_nil validHostname kv :
  checkHost validHostname kv = [] <->
  validHostname kv.1 = true /\ (2 <= length kv.2)%nat /\
  NoDup (cfgPrio <$> kv.2) /\ NoDup (cfgIP <$> kv.2).
Proof.
  unfold checkHost. split.
  - intros Hnil.
    apply app_eq_nil in Hnil as [Hh Hnil]. apply app_eq_nil in Hnil as [Hl Hd].
    apply checkDuplicates_nil in Hd as (Hp & Ha & _ & _).
    destruct (validHostname kv.1); [|done].
    destruct (Nat.ltb_spec (length kv.2) 2); [done|]. done.
  - intros (Hh & Hl & Hp & Ha). rewrite Hh.
    destruct (Nat.ltb_spec (length kv.2) 2); [lia|]. simpl.
    apply checkDuplicates_nil. repeat split; try done; intros ? _; apply not_elem_of_empty.
Qed.

(** [Validate] returns nil exactly when the check of the struct tags
    passes and every hostname is valid, has at least two records, and has
    no priority and no address (as written in the configuration) twice. *)
Theorem Validate_accepts_iff structErr validHostname records :
  Validate structErr validHostname records = [] <->
  structErr = None /\
  forall kv, kv ∈ records ->
    validHostname kv.1 = true /\ (2 <= length kv.2)%nat /\
    NoDup (cfgPrio <$> kv.2) /\ NoDup (cfgIP <$> kv.2).
Proof.
  unfold Validate. split.
  - intros Hnil. apply app_eq_nil in Hnil as [Hs Hc].
    split; [by destruct structErr|].
    intros kv Hkv. apply checkHost_nil.
    induction records as [|kv' records IH]; [by apply not_elem_of_nil in Hkv|].
    rewrite fmap_cons in Hc. simpl in Hc. apply app_eq_nil in Hc as [Hkv' Hc].
    apply elem_of_cons in Hkv as [->|Hkv]; [done|by apply IH].
  - intros [-> Hall]. simpl.
    induction records as [|kv records IH]; [done|].
    rewrite fmap_cons. simpl.
    rewrite (proj2 (checkHost_nil validHostname kv)) by (apply Hall; left).
    simpl. apply IH. intros kv' Hkv'. apply Hall. by right.
Qed.

(** The first record that repeats a priority seen before for its hostname
    is reported with that priority. *)
Example Validate_reports_duplicate :
  Validate None (fun _ => true)
    [("a.example"%string,
      [mkRecordConfig "10.0.0.1" "A" 20 30 Status.defaultStatusConfig;
       mkRecordConfig "10.0.0.2" "A" 20 30 Status.defaultStatusConfig])]
  = [DuplicatedPrio 20 "a.example"].
Proof. by vm_compute. Qed.

End ConfFacts.
